(** * soporte.py: column classifier and grid renderers

    A shallow embedding of [src/soporte.py].  The module is a thin layer
    over three collaborators (pandas, matplotlib, seaborn); what the module
    itself decides is which columns are selected, how the grid of axes is
    sized and addressed, which cells are deleted and which names are looked
    up.  That is what is modelled here:

    - a table is the ordered list of its labelled columns (pandas allows a
      label to occur more than once);
    - Python references to tables are indices into a heap of tables, so
      that "the caller's table is not mutated" is a statement about the
      heap;
    - a call runs in a state-and-exception monad over the heap, pyplot's
      current figure and a trace of the grid accesses;
    - the statistics and the painting done by the collaborators are kept
      symbolic (an artist records what was asked for, not pixels); what
      decides on the paths of this module whether a call raises is
      modelled: the shape of the grid, the resolution of indices, the
      resolution of labels (a label must select one column wherever a
      column is asked for), the number of bins, the box of a column without
      a value, the mean of a column of text; arguments that only style a
      chart (figure size, palette) are not recorded;
    - what the plotting library makes of the values themselves is not
      modelled, so the theorems that state that a renderer returns do so
      for tidy tables (distinct labels, integer or floating columns with a
      number in every cell, object columns of text), and the others speak
      of the runs that return. *)

From Stdlib Require Import ZArith QArith Qround Ascii.
From stdpp Require Import base list strings sorting.

Local Open Scope Z_scope.

(** ** Tables *)

(** Value kinds of a column, after the numpy/pandas dtype hierarchy. *)
Inductive dtype :=
| DInt | DUInt | DFloat | DComplex
| DBool | DObject | DDatetime | DTimedelta | DCategory.

(** [np.number]: the abstract parent of the integer, floating and complex
    kinds; [np.timedelta64] is a signed integer kind and so below it, while
    [np.bool_] and [np.datetime64] are not. *)
Definition is_number (d : dtype) : bool :=
  match d with
  | DInt | DUInt | DFloat | DComplex | DTimedelta => true
  | _ => false
  end.

(** ['O']: the object kind. *)
Definition is_object (d : dtype) : bool :=
  match d with
  | DObject => true
  | _ => false
  end.

(** What [numeric_only=True] keeps: the integer, floating, complex and
    boolean kinds (not the time kinds). *)
Definition is_numeric_data (d : dtype) : bool :=
  match d with
  | DInt | DUInt | DFloat | DComplex | DBool => true
  | _ => false
  end.

(** The content of one cell.  No modelled operation does arithmetic on a
    cell; cells are only compared (for counting categories). *)
Inductive cell :=
| Missing
| Text (s : string)
| Number (z : Z).

#[global] Instance cell_eq_dec : EqDecision cell.
Proof. solve_decision. Defined.

#[global] Instance dtype_eq_dec : EqDecision dtype.
Proof. solve_decision. Defined.

Record Series := mkSeries {
  name : string;
  kind : dtype;
  values : list cell
}.

#[global] Instance Series_eq_dec : EqDecision Series.
Proof. solve_decision. Defined.

(** A DataFrame: its columns, left to right. *)
Abbreviation DataFrame := (list Series).

(** [df.columns] *)
Definition columns (t : DataFrame) : list string := name <$> t.

(** The columns a label selects.  A label that occurs once selects a
    Series; a repeated label selects a table of all its occurrences. *)
Definition getitem_frame (t : DataFrame) (col : string) : list Series :=
  filter (λ c, name c = col) t.

(** The frame [select_dtypes(include = ...)] builds: the columns whose kind
    is included, selected by position, in their original order. *)
Definition select_dtypes_frame (incl : dtype → bool) (t : DataFrame) : DataFrame :=
  filter (λ c, incl (kind c) = true) t.

(** ** Exceptions the collaborators raise on the modelled paths *)

Inductive exn :=
| ValueError_rows (n : Z)           (* matplotlib: number of rows must be a positive integer *)
| ValueError_cols (n : Z)           (* matplotlib: number of columns must be a positive integer *)
| ValueError_grouper (col : string) (* pandas: grouper for col not 1-dimensional *)
| ValueError_interpret (v : string) (* seaborn: could not interpret value v *)
| ValueError_not_1d (v : string)    (* seaborn: the data v selects is not 1-dimensional *)
| ValueError_bins (n : Z)           (* numpy: the number of bins must be positive *)
| ValueError_no_data (x : string)   (* seaborn: no observation of x to draw a box from *)
| TypeError_mean (vr : string)      (* pandas: the mean of vr cannot be taken *)
| TypeError_sort_by (vr : string)   (* pandas: sort_values of a table without by *)
| KeyError_column (col : string)    (* pandas: column not found: col *)
| KeyError_axes (i : nat)           (* matplotlib: the axes is not in the figure *)
| IndexError (i : Z).               (* numpy, list: index out of range *)

Inductive result (A : Type) :=
| Ok (a : A)
| Raise (e : exn).
Arguments Ok {A} a.
Arguments Raise {A} e.

(** ** Figures *)

(** A reference to a table: its index in the heap. *)
Abbreviation ref := nat.

(** The group means [df.groupby(by)[of].mean().sort_values(ascending=False)
    .reset_index()], kept symbolic. *)
Record grouped := mkGrouped { g_src : ref; g_by : string; g_of : string }.

(** A category of a count plot: the cells of one row of the selection. *)
Abbreviation category := (list cell).

(** The coefficient pandas stores for a pair of columns, kept symbolic. *)
Record coef := Pearson { co_x : Series; co_y : Series }.

Inductive artist :=
| Histplot (x : string) (data : ref) (bins : Z)
| Countplot (x : string) (data : ref) (order : list category)
| Barplot (x y : string) (data : grouped)
| Scatterplot (x y : string) (data : ref)
| Boxplot (x : string) (data : ref) (color : Z * Z)
| Heatmap (data : list (list coef)) (annot : bool) (vmin vmax : Z)
          (mask : list (list bool))
| Title (s : string)
| XLabel (s : string)
| XTickRotation (deg : Z).

Record axes_cell := mkCell {
  in_figure : bool;           (* false once delaxes has removed it *)
  artists : list artist       (* in drawing order *)
}.

Record figure := mkFigure {
  nrows : Z;
  ncols : Z;
  cells : list axes_cell;     (* row-major: the order of [axes.flat] *)
  tight : bool
}.

(** One entry of the trace: each allocation of a grid, each resolution of
    an index of [axes.flat], each deletion, the final layout. *)
Inductive event :=
| ESubplots (r c : Z)
| EIndex (i : nat)
| EDelaxes (i : nat)
| ETight.

Record world := mkWorld {
  frames : list DataFrame;    (* the heap of tables *)
  current : option figure;    (* pyplot's current figure *)
  trace : list event          (* oldest first *)
}.

(** ** The monad *)

Definition M (A : Type) : Type := world → world * result A.

Definition ret {A} (a : A) : M A := λ w, (w, Ok a).

Definition bind {A B} (m : M A) (k : A → M B) : M B :=
  λ w, match m w with
       | (w', Ok a) => k a w'
       | (w', Raise e) => (w', Raise e)
       end.

Definition raise {A} (e : exn) : M A := λ w, (w, Raise e).

Notation "'let*' x ':=' m 'in' k" := (bind m (λ x, k))
  (at level 10, x name, m at level 100, k at level 200).
Notation "m '>>' k" := (bind m (λ _, k))
  (at level 100, k at level 200, right associativity).

(** [for i, x in enumerate(l): body], counting from [i]. *)
Fixpoint for_enumerate {A} (i : Z) (l : list A) (body : Z → A → M unit) : M unit :=
  match l with
  | [] => ret tt
  | x :: l' => body i x >> for_enumerate (i + 1) l' body
  end.

(** ** pandas *)

(** The table a reference denotes. *)
Definition deref (w : world) (r : ref) : DataFrame := default [] (frames w !! r).

(** A new table object. *)
Definition alloc (t : DataFrame) : M ref :=
  λ w, (mkWorld (frames w ++ [t]) (current w) (trace w), Ok (length (frames w))).

(** [df.select_dtypes(include = incl)]: a new table, the receiver is only
    read. *)
Definition select_dtypes (df : ref) (incl : dtype → bool) : M ref :=
  λ w, alloc (select_dtypes_frame incl (deref w df)) w.

(** [df.columns] *)
Definition get_columns (df : ref) : M (list string) :=
  λ w, (w, Ok (columns (deref w df))).

(** ** The classifier *)

Definition separar_df (df : ref) : M (ref * ref) :=
  let* df_num := select_dtypes df is_number in
  let* df_cat := select_dtypes df is_object in
  ret (df_num, df_cat).

(** ** Python and numpy indexing *)

(** [l[i]] on a sequence: a negative index counts from the end, an index
    out of range raises. *)
Definition py_getitem {A} (l : list A) (i : Z) : M A :=
  let j := if decide (i < 0) then i + Z.of_nat (length l) else i in
  if decide (j < 0) then raise (IndexError i)
  else match l !! Z.to_nat j with
       | Some x => ret x
       | None => raise (IndexError i)
       end.

(** [n_plots / 2] is true division; the quotient is kept exact. *)
Definition true_div (a b : Z) : Q := (inject_Z a / inject_Z b)%Q.

(** [math.ceil] *)
Definition math_ceil (q : Q) : Z := Qceiling q.

(** ** matplotlib *)

Definition log (e : event) : M unit :=
  λ w, (mkWorld (frames w) (current w) (trace w ++ [e]), Ok tt).

Definition set_current (f : option figure) : M unit :=
  λ w, (mkWorld (frames w) f (trace w), Ok tt).

Definition get_current : M (option figure) := λ w, (w, Ok (current w)).

Definition blank_cell : axes_cell := mkCell true [].

(** The flat array of axes of a grid: the handle of a cell is its row-major
    position. *)
Abbreviation flatiter := (list nat).

(** [plt.figure(...)]: a new, empty current figure. *)
Definition plt_figure : M unit :=
  set_current (Some (mkFigure 0 0 [] false)).

(** [fig.subplots(nrows, ncols)] on the current figure.  The grid
    specification refuses a row or column count that is not positive;
    otherwise the figure gets nrows * ncols empty axes. *)
Definition fig_subplots (r c : Z) : M flatiter :=
  if decide (r ≤ 0) then raise (ValueError_rows r)
  else if decide (c ≤ 0) then raise (ValueError_cols c)
  else
    let n := Z.to_nat (r * c) in
    set_current (Some (mkFigure r c (replicate n blank_cell) false)) >>
    log (ESubplots r c) >>
    ret (seq 0 n).

(** [fig, axes = plt.subplots(nrows, ncols, ...)] followed by
    [axes = axes.flat]: pyplot first creates the figure, then asks it for
    the grid. *)
Definition plt_subplots (r c : Z) : M flatiter :=
  plt_figure >>
  fig_subplots r c.

(** [axes[i]] on the flat array; every resolved index is traced. *)
Definition flat_getitem (axes : flatiter) (i : Z) : M nat :=
  let* h := py_getitem axes i in
  log (EIndex h) >>
  ret h.

Definition add_artist (a : artist) (c : axes_cell) : axes_cell :=
  mkCell (in_figure c) (artists c ++ [a]).

Definition alter_cell (f : axes_cell → axes_cell) (h : nat) (g : figure) : figure :=
  mkFigure (nrows g) (ncols g) (alter f h (cells g)) (tight g).

(** Any drawing call on an Axes object.  The object can be drawn on whether
    or not it is still part of the figure. *)
Definition on_axes (h : nat) (a : artist) : M unit :=
  let* f := get_current in
  set_current (alter_cell (add_artist a) h <$> f).

Definition set_title (ax : nat) (s : string) : M unit := on_axes ax (Title s).
Definition set_xlabel (ax : nat) (s : string) : M unit := on_axes ax (XLabel s).
Definition tick_params_x_rotation (ax : nat) (deg : Z) : M unit :=
  on_axes ax (XTickRotation deg).

Definition cell_in_figure (f : option figure) (h : nat) : bool :=
  match f with
  | Some g => match cells g !! h with Some c => in_figure c | None => false end
  | None => false
  end.

(** [fig.delaxes(ax)]: removes the axes from the figure; an axes that is
    not (or no longer) in the figure raises. *)
Definition fig_delaxes (ax : nat) : M unit :=
  let* f := get_current in
  if cell_in_figure f ax then
    set_current (alter_cell (λ c, mkCell false (artists c)) ax <$> f) >>
    log (EDelaxes ax)
  else raise (KeyError_axes ax).

(** [plt.tight_layout()] *)
Definition plt_tight_layout : M unit :=
  let* f := get_current in
  set_current ((λ g, mkFigure (nrows g) (ncols g) (cells g) true) <$> f) >>
  log ETight.

(** ** seaborn *)

(** A check that reads the table [data] refers to and changes nothing. *)
Definition lift_check (data : ref) (f : DataFrame → result unit) : M unit :=
  λ w, (w, f (deref w data)).

(** seaborn first looks every variable given by name up among the columns
    of [data] ... *)
Fixpoint interpret_vars (t : DataFrame) (vars : list string) : result unit :=
  match vars with
  | [] => Ok tt
  | v :: vs =>
      match getitem_frame t v with
      | [] => Raise (ValueError_interpret v)
      | _ => interpret_vars t vs
      end
  end.

(** ... and then builds the frame of the data they select, which needs
    each of them to select a single column. *)
Fixpoint frame_vars (t : DataFrame) (vars : list string) : result unit :=
  match vars with
  | [] => Ok tt
  | v :: vs =>
      match getitem_frame t v with
      | [_] => frame_vars t vs
      | _ => Raise (ValueError_not_1d v)
      end
  end.

Definition assign_variables (vars : list string) (t : DataFrame) : result unit :=
  match interpret_vars t vars with
  | Ok _ => frame_vars t vars
  | Raise e => Raise e
  end.

Definition sns_assign (data : ref) (vars : list string) : M unit :=
  lift_check data (assign_variables vars).

(** A histogram needs a positive number of bins. *)
Definition check_bins (bins : Z) : M unit :=
  if decide (bins ≤ 0) then raise (ValueError_bins bins) else ret tt.

(** A box needs at least one observation that is not missing. *)
Definition box_data (x : string) (t : DataFrame) : result unit :=
  match getitem_frame t x with
  | [c] =>
      if decide (Forall (λ v, v = Missing) (values c))
      then Raise (ValueError_no_data x)
      else Ok tt
  | _ => Ok tt
  end.

Definition sns_histplot (x : string) (data : ref) (ax : nat) (bins : Z) : M unit :=
  sns_assign data [x] >>
  check_bins bins >>
  on_axes ax (Histplot x data bins).

Definition sns_countplot (x : string) (data : ref) (ax : nat)
    (order : list category) : M unit :=
  sns_assign data [x] >>
  on_axes ax (Countplot x data order).

(** The grouped table has exactly the columns [x] and [y] it is asked
    for. *)
Definition sns_barplot (x y : string) (data : grouped) (ax : nat) : M unit :=
  on_axes ax (Barplot x y data).

Definition sns_scatterplot (x y : string) (data : ref) (ax : nat) : M unit :=
  sns_assign data [x; y] >>
  on_axes ax (Scatterplot x y data).

Definition sns_boxplot (x : string) (data : ref) (ax : nat) (color : Z * Z) : M unit :=
  sns_assign data [x] >>
  lift_check data (box_data x) >>
  on_axes ax (Boxplot x data color).

(** ** pandas: category counts, grouping *)

(** The rows of a selection: one cell per selected column. *)
Fixpoint rows_of (sel : list Series) : list category :=
  match sel with
  | [] => []
  | [c] => (λ v, [v]) <$> values c
  | c :: sel' => zip_with cons (values c) (rows_of sel')
  end.

(** [dropna]: rows that hold a missing cell are not counted. *)
Definition dropna (rs : list category) : list category :=
  filter (λ r, Missing ∉ r) rs.

Definition count_rows (r : category) (rs : list category) : nat :=
  length (filter (λ x, x = r) rs).

(** The distinct rows, in order of first appearance. *)
Fixpoint unique_rows (rs : list category) : list category :=
  match rs with
  | [] => []
  | r :: rs' => r :: filter (λ x, x ≠ r) (unique_rows rs')
  end.

(** Insertion into a list that is descending by count. *)
Fixpoint insert_desc (p : category * nat) (l : list (category * nat))
    : list (category * nat) :=
  match l with
  | [] => [p]
  | q :: l' =>
      if decide (q.2 ≤ p.2)%nat then p :: q :: l' else q :: insert_desc p l'
  end.

(** [sort_values(ascending=False)] on the counts.  pandas does not fix the
    relative order of equal counts; this model keeps first appearance, and
    nothing below depends on it. *)
Definition sort_desc (l : list (category * nat)) : list (category * nat) :=
  foldr insert_desc [] l.

(** [value_counts()]: each distinct row with its number of occurrences,
    most frequent first. *)
Definition value_counts (sel : list Series) : list (category * nat) :=
  let rs := dropna (rows_of sel) in
  sort_desc ((λ r, (r, count_rows r rs)) <$> unique_rows rs).

(** [df[col].value_counts().index].  When the label selects several
    columns, [df[col]] is a table, whose [value_counts] groups by its
    column labels and is refused like any grouping by a repeated label. *)
Definition value_counts_index (df : ref) (col : string) : M (list category) :=
  λ w, match getitem_frame (deref w df) col with
       | [] => (w, Raise (KeyError_column col))
       | [c] => (w, Ok ((value_counts [c]).*1))
       | _ => (w, Raise (ValueError_grouper col))
       end.

(** [df.groupby(col)] *)
Record groupby := mkGroupBy { gb_src : ref; gb_by : string }.

(** The grouping label must select one column: an absent label is a key
    error, a repeated one gives a grouper that is not 1-dimensional. *)
Definition df_groupby (df : ref) (col : string) : M groupby :=
  λ w, match getitem_frame (deref w df) col with
       | [] => (w, Raise (KeyError_column col))
       | [_] => (w, Ok (mkGroupBy df col))
       | _ => (w, Raise (ValueError_grouper col))
       end.

(** [g[vr]]: the selected label must be a column of the grouped table. *)
Definition groupby_getitem (g : groupby) (vr : string) : M (groupby * string) :=
  let* cols := get_columns (gb_src g) in
  if decide (vr ∈ cols) then ret (g, vr) else raise (KeyError_column vr).

(** The group means, sorted and with the index reset, once they can be
    computed. *)
Definition mean_sorted_reset (s : groupby * string) : grouped :=
  mkGrouped (gb_src s.1) (gb_by s.1) s.2.

(** The kinds [mean] refuses: text and categories. *)
Definition no_mean (d : dtype) : bool :=
  match d with
  | DObject | DCategory => true
  | _ => false
  end.

(** [.mean().sort_values(ascending=False).reset_index()].  The mean of a
    column of text or categories is a type error; when the label selects
    several columns the means are a table, which [sort_values] cannot sort
    without being told by which column. *)
Definition gb_mean_sorted_reset (s : groupby * string) : M grouped :=
  λ w, match getitem_frame (deref w (gb_src s.1)) s.2 with
       | [] => (w, Raise (KeyError_column s.2))
       | [c] =>
           if no_mean (kind c) then (w, Raise (TypeError_mean s.2))
           else (w, Ok (mean_sorted_reset s))
       | sel =>
           if existsb (λ c, no_mean (kind c)) sel
           then (w, Raise (TypeError_mean s.2))
           else (w, Raise (TypeError_sort_by s.2))
       end.

(** ** The grid renderers *)

(** [plot_numericas(df, nbins = 20)]: the caller of the model passes
    [nbins]. *)
Definition plot_numericas (df : ref) (nbins : Z) : M unit :=
  let* sep := separar_df df in
  let df_num := sep.1 in
  let* cols := get_columns df_num in
  let n_plots := Z.of_nat (length cols) in
  let num_filas := math_ceil (true_div n_plots 2) in
  let* axes := plt_subplots num_filas 2 in
  for_enumerate 0 cols (λ i col,
    let* ax := flat_getitem axes i in
    sns_histplot col df_num ax nbins >>
    let* ax := flat_getitem axes i in
    set_title ax col >>
    let* ax := flat_getitem axes i in
    set_xlabel ax "") >>
  (if decide (n_plots `mod` 2 ≠ 0) then
     let* ax := flat_getitem axes (-1) in
     fig_delaxes ax
   else ret tt) >>
  plt_tight_layout.

(** [plot_categoricas(df)]: the bars of a column are ordered by the counts
    of that column in [df] itself. *)
Definition plot_categoricas (df : ref) : M unit :=
  let* sep := separar_df df in
  let df_cat := sep.2 in
  let* cols := get_columns df_cat in
  let n_plots := Z.of_nat (length cols) in
  let num_filas := math_ceil (true_div n_plots 2) in
  let* axes := plt_subplots num_filas 2 in
  for_enumerate 0 cols (λ i col,
    let* ax := flat_getitem axes i in
    let* order := value_counts_index df col in
    sns_countplot col df_cat ax order >>
    let* ax := flat_getitem axes i in
    set_title ax col >>
    let* ax := flat_getitem axes i in
    set_xlabel ax "" >>
    let* ax := flat_getitem axes i in
    tick_params_x_rotation ax 45) >>
  (if decide (n_plots `mod` 2 ≠ 0) then
     let* ax := flat_getitem axes (-1) in
     fig_delaxes ax
   else ret tt) >>
  plt_tight_layout.

(** [relacion_vr_categoricas(df, vr)]: the group means are computed before
    the axes of the column is looked up. *)
Definition relacion_vr_categoricas (df : ref) (vr : string) : M unit :=
  let* df_cat := select_dtypes df is_object in
  let* cols_cat := get_columns df_cat in
  let n_plots := Z.of_nat (length cols_cat) in
  let num_filas := math_ceil (true_div n_plots 2) in
  let* axes := plt_subplots num_filas 2 in
  for_enumerate 0 cols_cat (λ i col,
    let* g := df_groupby df col in
    let* s := groupby_getitem g vr in
    let* datos_agrupados := gb_mean_sorted_reset s in
    let* ax := flat_getitem axes i in
    sns_barplot col vr datos_agrupados ax >>
    let* ax := flat_getitem axes i in
    set_title ax col >>
    let* ax := flat_getitem axes i in
    set_xlabel ax "" >>
    let* ax := flat_getitem axes i in
    tick_params_x_rotation ax 45) >>
  (if decide (n_plots `mod` 2 ≠ 0) then
     let* ax := flat_getitem axes (-1) in
     fig_delaxes ax
   else ret tt) >>
  plt_tight_layout.

(** [relacion_vr_numericas(df, vr)]: the cell of a column labelled [vr] is
    deleted, the others get a scatter chart. *)
Definition relacion_vr_numericas (df : ref) (vr : string) : M unit :=
  let* df_num := select_dtypes df is_number in
  let* cols_num := get_columns df_num in
  let n_plots := Z.of_nat (length cols_num) in
  let num_filas := math_ceil (true_div n_plots 2) in
  let* axes := plt_subplots num_filas 2 in
  for_enumerate 0 cols_num (λ i col,
    if decide (col = vr) then
      let* ax := flat_getitem axes i in
      fig_delaxes ax
    else
      let* ax := flat_getitem axes i in
      sns_scatterplot col vr df_num ax >>
      let* ax := flat_getitem axes i in
      set_title ax col >>
      let* ax := flat_getitem axes i in
      set_xlabel ax "") >>
  (if decide (n_plots `mod` 2 ≠ 0) then
     let* ax := flat_getitem axes (-1) in
     fig_delaxes ax
   else ret tt) >>
  plt_tight_layout.

(** [cmap = plt.cm.get_cmap('mako', n)] and
    [[cmap(i) for i in range(cmap.N)]]: the i-th of the n colours of the
    palette, kept symbolic as the pair (i, n). *)
Definition mako_color_list (n : Z) : list (Z * Z) :=
  (λ i, (Z.of_nat i, n)) <$> seq 0 (Z.to_nat n).

(** [detectar_outliers(df, vr)]: the palette is built before the grid. *)
Definition detectar_outliers (df : ref) (vr : string) : M unit :=
  let* df_num := select_dtypes df is_number in
  let* cols_num := get_columns df_num in
  let n_plots := Z.of_nat (length cols_num) in
  let num_filas := math_ceil (true_div n_plots 2) in
  let color_list := mako_color_list n_plots in
  let* axes := plt_subplots num_filas 2 in
  for_enumerate 0 cols_num (λ i col,
    let* ax := flat_getitem axes i in
    let* color := py_getitem color_list i in
    sns_boxplot col df_num ax color >>
    let* ax := flat_getitem axes i in
    set_title ax ("Outliers de " +:+ col) >>
    let* ax := flat_getitem axes i in
    set_xlabel ax "") >>
  (if decide (n_plots `mod` 2 ≠ 0) then
     let* ax := flat_getitem axes (-1) in
     fig_delaxes ax
   else ret tt) >>
  plt_tight_layout.

(** ** The correlation heat map *)

#[global] Instance Series_inhabited : Inhabited Series :=
  populate (mkSeries "" DObject []).

(** The matrix [df.corr(numeric_only=True)] holds.  pandas walks the pairs
    (i, j) with j <= i over the numeric-data columns, computes one
    coefficient for the pair and stores it at both [i, j] and [j, i]. *)
Definition corr_entry (cols : list Series) (i j : nat) : coef :=
  Pearson (cols !!! (i `max` j)%nat) (cols !!! (i `min` j)%nat).

Definition corr_frame (t : DataFrame) : list (list coef) :=
  let cols := select_dtypes_frame is_numeric_data t in
  let K := length cols in
  (λ i, (λ j, corr_entry cols i j) <$> seq 0 K) <$> seq 0 K.

Definition df_corr_numeric_only (df : ref) : M (list (list coef)) :=
  λ w, (w, Ok (corr_frame (deref w df))).

(** [np.ones_like(m, dtype = np.bool_)] *)
Definition np_ones_like {A} (m : list (list A)) : list (list bool) :=
  (λ row : list A, (λ _, true) <$> row) <$> m.

(** [np.triu]: the entries on and above the diagonal are kept, the ones
    below are zeroed. *)
Definition np_triu (m : list (list bool)) : list (list bool) :=
  imap (λ i row, imap (λ j b, if decide (i ≤ j)%nat then b else false) row) m.

(** [plt.gca()]: the current axes; a figure without axes gets one. *)
Definition plt_gca : M nat :=
  let* f := get_current in
  match f with
  | Some g =>
      match cells g with
      | [] => set_current (Some (mkFigure 1 1 [blank_cell] (tight g))) >> ret 0%nat
      | cs => ret (length cs - 1)%nat
      end
  | None => set_current (Some (mkFigure 1 1 [blank_cell] false)) >> ret 0%nat
  end.

(** [sns.heatmap(data, annot, vmin, vmax, mask)] draws on the current
    axes. *)
Definition sns_heatmap (data : list (list coef)) (annot : bool) (vmin vmax : Z)
    (mask : list (list bool)) : M unit :=
  let* ax := plt_gca in
  on_axes ax (Heatmap data annot vmin vmax mask).

(** [plot_matriz_correlacion(df)] *)
Definition plot_matriz_correlacion (df : ref) : M unit :=
  let* matriz_correlacion := df_corr_numeric_only df in
  plt_figure >>
  let mascara := np_triu (np_ones_like matriz_correlacion) in
  sns_heatmap matriz_correlacion true (-1) 1 mascara.



(** A world to run examples in: a heap that holds one table. *)
Definition world_of (t : DataFrame) : world := mkWorld [t] None [].

(** ** What the trace and the figure of a grid renderer must look like *)

(** The grid cell an event addresses. *)
Definition index_of (e : event) : option nat :=
  match e with
  | EIndex i | EDelaxes i => Some i
  | _ => None
  end.

(** Replays the accesses to a grid of [total] cells; [removed] are the
    cells deleted so far.  Every access must address a cell of the grid
    that has not been deleted. *)
Fixpoint trace_safe (total : nat) (removed : list nat) (evs : list event) : bool :=
  match evs with
  | [] => true
  | EIndex h :: evs' =>
      bool_decide (h < total)%nat && bool_decide (h ∉ removed)
      && trace_safe total removed evs'
  | EDelaxes h :: evs' =>
      bool_decide (h < total)%nat && bool_decide (h ∉ removed)
      && trace_safe total (h :: removed) evs'
  | _ :: evs' => trace_safe total removed evs'
  end.

(** The two exceptions of grid addressing. *)
Definition is_grid_error (e : exn) : bool :=
  match e with
  | IndexError _ | KeyError_axes _ => true
  | _ => false
  end.

(** All events address a cell below [k]. *)
Definition below (k : nat) (evs : list event) : Prop :=
  Forall (λ e, ∀ h, index_of e = Some h → (h < k)%nat) evs.

(** The part every grid renderer shares, once it knows its columns. *)
Definition grid_skeleton (cols : list string)
    (body : flatiter → Z → string → M unit) : M unit :=
  let n_plots := Z.of_nat (length cols) in
  let num_filas := math_ceil (true_div n_plots 2) in
  let* axes := plt_subplots num_filas 2 in
  for_enumerate 0 cols (body axes) >>
  (if decide (n_plots `mod` 2 ≠ 0) then
     let* ax := flat_getitem axes (-1) in
     fig_delaxes ax
   else ret tt) >>
  plt_tight_layout.

(** The number of rows and of cells of the grid for [n] plots. *)
Definition rows_for (n : nat) : Z := math_ceil (true_div (Z.of_nat n) 2).
Definition cells_for (n : nat) : nat := Z.to_nat (rows_for n * 2).

(** The state between two iterations of the loop, [done] being the cells
    of the columns already handled: nothing but the figure and the trace
    has changed, the cells not reached yet are blank, the events so far
    address handled cells only and are safe. *)
Definition grid_inv (F : list DataFrame) (tr0 : list event) (n : nat)
    (done : list axes_cell) (w : world) : Prop :=
  frames w = F ∧
  current w = Some (mkFigure (rows_for n) 2
                      (done ++ replicate (cells_for n - length done) blank_cell)
                      false) ∧
  ∃ evs, trace w = tr0 ++ ESubplots (rows_for n) 2 :: evs ∧
         below (length done) evs ∧
         trace_safe (cells_for n) [] evs = true.

(** What holds whenever a grid renderer stops, normally or not: the grid
    was allocated and every access to it was safe. *)
Definition grid_alloc (F : list DataFrame) (tr0 : list event) (n : nat)
    (w : world) : Prop :=
  frames w = F ∧
  (∃ g, current w = Some g ∧ nrows g = rows_for n ∧ ncols g = 2 ∧
        length (cells g) = cells_for n) ∧
  ∃ evs, trace w = tr0 ++ ESubplots (rows_for n) 2 :: evs ∧
         trace_safe (cells_for n) [] evs = true.

(** The events after the loop: the trailing cell goes when the number of
    plots is odd. *)
Definition cleanup_events (n : nat) : list event :=
  if Nat.odd n then [EIndex n; EDelaxes n] else [].

Definition cleanup_cells (n : nat) : list axes_cell :=
  if Nat.odd n then [mkCell false []] else [].

(** The state after a complete run over [n] columns whose cells are
    [done]. *)
Definition grid_done (F : list DataFrame) (tr0 : list event) (n : nat)
    (done : list axes_cell) (w : world) : Prop :=
  frames w = F ∧
  current w = Some (mkFigure (rows_for n) 2 (done ++ cleanup_cells n) true) ∧
  ∃ evs, trace w = tr0 ++ ESubplots (rows_for n) 2 :: evs
                     ++ cleanup_events n ++ [ETight] ∧
         below n evs ∧
         trace_safe (cells_for n) [] (evs ++ cleanup_events n ++ [ETight]) = true.

(** The world in the middle of an iteration: [cur] is the cell of the
    column at hand, at position [length done]. *)
Definition grid_world (F : list DataFrame) (tr0 : list event) (n : nat)
    (done : list axes_cell) (cur : axes_cell) (evs : list event) : world :=
  mkWorld F
    (Some (mkFigure (rows_for n) 2
             (done ++ cur :: replicate (cells_for n - S (length done)) blank_cell)
             false))
    (tr0 ++ ESubplots (rows_for n) 2 :: evs).

(** The loop bodies of the five renderers, as functions of the flat array
    of axes, and the cell each leaves behind for column [col] at position
    [k]. *)
Definition numericas_body (df_num : ref) (nbins : Z) (axes : flatiter)
    (i : Z) (col : string) : M unit :=
  let* ax := flat_getitem axes i in
  sns_histplot col df_num ax nbins >>
  let* ax := flat_getitem axes i in
  set_title ax col >>
  let* ax := flat_getitem axes i in
  set_xlabel ax "".

Definition numericas_cell (df_num : ref) (nbins : Z) (k : nat) (col : string)
    : axes_cell :=
  mkCell true [Histplot col df_num nbins; Title col; XLabel ""].

Definition categoricas_body (df df_cat : ref) (axes : flatiter)
    (i : Z) (col : string) : M unit :=
  let* ax := flat_getitem axes i in
  let* order := value_counts_index df col in
  sns_countplot col df_cat ax order >>
  let* ax := flat_getitem axes i in
  set_title ax col >>
  let* ax := flat_getitem axes i in
  set_xlabel ax "" >>
  let* ax := flat_getitem axes i in
  tick_params_x_rotation ax 45.

Definition categoricas_cell (t : DataFrame) (df_cat : ref) (k : nat)
    (col : string) : axes_cell :=
  mkCell true [Countplot col df_cat (value_counts (getitem_frame t col)).*1;
               Title col; XLabel ""; XTickRotation 45].

Definition vr_categoricas_body (df : ref) (vr : string) (axes : flatiter)
    (i : Z) (col : string) : M unit :=
  let* g := df_groupby df col in
  let* s := groupby_getitem g vr in
  let* datos_agrupados := gb_mean_sorted_reset s in
  let* ax := flat_getitem axes i in
  sns_barplot col vr datos_agrupados ax >>
  let* ax := flat_getitem axes i in
  set_title ax col >>
  let* ax := flat_getitem axes i in
  set_xlabel ax "" >>
  let* ax := flat_getitem axes i in
  tick_params_x_rotation ax 45.

Definition vr_categoricas_cell (df : ref) (vr : string) (k : nat)
    (col : string) : axes_cell :=
  mkCell true [Barplot col vr (mkGrouped df col vr);
               Title col; XLabel ""; XTickRotation 45].

Definition vr_numericas_body (df_num : ref) (vr : string) (axes : flatiter)
    (i : Z) (col : string) : M unit :=
  if decide (col = vr) then
    let* ax := flat_getitem axes i in
    fig_delaxes ax
  else
    let* ax := flat_getitem axes i in
    sns_scatterplot col vr df_num ax >>
    let* ax := flat_getitem axes i in
    set_title ax col >>
    let* ax := flat_getitem axes i in
    set_xlabel ax "".

Definition vr_numericas_cell (df_num : ref) (vr : string) (k : nat)
    (col : string) : axes_cell :=
  if decide (col = vr) then mkCell false []
  else mkCell true [Scatterplot col vr df_num; Title col; XLabel ""].

Definition outliers_body (df_num : ref) (color_list : list (Z * Z))
    (axes : flatiter) (i : Z) (col : string) : M unit :=
  let* ax := flat_getitem axes i in
  let* color := py_getitem color_list i in
  sns_boxplot col df_num ax color >>
  let* ax := flat_getitem axes i in
  set_title ax ("Outliers de " +:+ col) >>
  let* ax := flat_getitem axes i in
  set_xlabel ax "".

Definition outliers_cell (df_num : ref) (n : nat) (k : nat) (col : string)
    : axes_cell :=
  mkCell true [Boxplot col df_num (Z.of_nat k, Z.of_nat n);
               Title ("Outliers de " +:+ col); XLabel ""].

(** ** The statements *)

(** The five renderers that draw into a grid, with their parameters. *)
Inductive renderer :=
| PlotNumericas (nbins : Z)
| PlotCategoricas
| RelacionVrCategoricas (vr : string)
| RelacionVrNumericas (vr : string)
| DetectarOutliers (vr : string).

Definition run_renderer (r : renderer) (df : ref) : M unit :=
  match r with
  | PlotNumericas nbins => plot_numericas df nbins
  | PlotCategoricas => plot_categoricas df
  | RelacionVrCategoricas vr => relacion_vr_categoricas df vr
  | RelacionVrNumericas vr => relacion_vr_numericas df vr
  | DetectarOutliers vr => detectar_outliers df vr
  end.

(** The columns a renderer makes one plot for. *)
Definition relevant (r : renderer) (t : DataFrame) : list string :=
  match r with
  | PlotNumericas _ | RelacionVrNumericas _ | DetectarOutliers _ =>
      columns (select_dtypes_frame is_number t)
  | PlotCategoricas | RelacionVrCategoricas _ =>
      columns (select_dtypes_frame is_object t)
  end.


(** The label selects one column of the table. *)
Definition single (t : DataFrame) (v : string) : Prop :=
  length (getitem_frame t v) = 1%nat.

(** The column holds a cell that is not missing. *)
Definition has_data (c : Series) : Prop :=
  ¬ Forall (λ v, v = Missing) (values c).

(** When every check of the model passes, for all the columns of a
    renderer: each label the plotting library is given selects one column
    of the data it is given with it; the bins are positive; every box has
    an observation; the counts and the means are taken of one column, the
    means not of text. *)
Definition paints (r : renderer) (t : DataFrame) : Prop :=
  let tn := select_dtypes_frame is_number t in
  match r with
  | PlotNumericas nbins =>
      0 < nbins ∧ ∀ col, col ∈ columns tn → single tn col
  | PlotCategoricas =>
      ∀ col, col ∈ relevant r t → single t col
  | RelacionVrCategoricas vr =>
      (∀ col, col ∈ relevant r t → single t col) ∧
      ∃ c, getitem_frame t vr = [c] ∧ no_mean (kind c) = false
  | RelacionVrNumericas vr =>
      ∀ col, col ∈ columns tn → col ≠ vr → single tn col ∧ single tn vr
  | DetectarOutliers _ =>
      ∀ col, col ∈ columns tn → ∃ c, getitem_frame tn col = [c] ∧ has_data c
  end.

(** The integer and floating kinds. *)
Definition is_plain (d : dtype) : bool :=
  match d with
  | DInt | DUInt | DFloat => true
  | _ => false
  end.

(** Text that is drawn as it is: matplotlib reads what stands between
    dollar signs as mathematics, which it may refuse. *)
Fixpoint has_dollar (s : string) : bool :=
  match s with
  | EmptyString => false
  | String a s' => if Ascii.eqb a "$"%char then true else has_dollar s'
  end.

Definition plain_text (s : string) : bool := negb (has_dollar s).

(** A cell of plain text, or a missing one. *)
Definition clean_text (v : cell) : bool :=
  match v with
  | Missing => true
  | Text s => plain_text s
  | Number _ => false
  end.

(** A number that every numeric kind holds exactly. *)
Definition clean_number (v : cell) : bool :=
  match v with
  | Number z => bool_decide (Z.abs z ≤ 2 ^ 53)
  | _ => false
  end.

(** A numeric column as the charts take it without question: of integer or
    floating kind, with at least one cell and a number in every cell. *)
Definition clean_numeric (c : Series) : Prop :=
  is_plain (kind c) = true ∧ values c ≠ [] ∧
  Forall (λ v, clean_number v = true) (values c).

(** An object column as the charts take it without question: plain text or
    nothing in every cell, text in at least one. *)
Definition clean_object (c : Series) : Prop :=
  has_data c ∧ Forall (λ v, clean_text v = true) (values c).

(** A table on which a renderer is certain to return: the labels are
    pairwise distinct and plain text; every column plotted is clean; the
    bins are positive; the response variable is a clean numeric column (for
    the group means) or one of the numeric columns (for the scatter
    charts).  What the plotting library makes of other data (complex
    numbers, time differences, columns without a value) is not decided
    here. *)
Definition tidy (r : renderer) (t : DataFrame) : Prop :=
  NoDup (columns t) ∧
  Forall (λ s, plain_text s = true) (columns t) ∧
  Forall (λ c, name c ∈ relevant r t →
               (is_number (kind c) = true → clean_numeric c) ∧
               (is_object (kind c) = true → clean_object c)) t ∧
  match r with
  | PlotNumericas nbins => 0 < nbins
  | RelacionVrCategoricas vr => Exists (λ c, name c = vr ∧ clean_numeric c) t
  | RelacionVrNumericas vr => vr ∈ relevant r t
  | _ => True
  end.

#[global] Instance has_data_dec c : Decision (has_data c).
Proof. unfold has_data. apply _. Defined.

#[global] Instance clean_numeric_dec c : Decision (clean_numeric c).
Proof. unfold clean_numeric. apply _. Defined.

#[global] Instance clean_object_dec c : Decision (clean_object c).
Proof. unfold clean_object. apply _. Defined.

#[global] Instance tidy_dec r t : Decision (tidy r t).
Proof. unfold tidy. destruct r; apply _. Defined.

(** The cell a renderer leaves for the column [col] at position [k], [h]
    being the size of the heap when it was called. *)
Definition cell_of (r : renderer) (h : nat) (df : ref) (t : DataFrame)
    : nat → string → axes_cell :=
  match r with
  | PlotNumericas nbins => numericas_cell h nbins
  | PlotCategoricas => categoricas_cell t (S h)
  | RelacionVrCategoricas vr => vr_categoricas_cell df vr
  | RelacionVrNumericas vr => vr_numericas_cell h vr
  | DetectarOutliers _ => outliers_cell h (length (relevant r t))
  end.

(** [r] is the ceiling of [n / 2]. *)
Definition is_ceil_half (n : nat) (r : Z) : Prop :=
  2 * (r - 1) < Z.of_nat n ≤ 2 * r.

(** No numeric column shares its label with an object column. *)
Definition kinds_share_no_label (t : DataFrame) : Prop :=
  ∀ c1 c2, c1 ∈ t → c2 ∈ t →
           is_number (kind c1) = true → is_object (kind c2) = true →
           name c1 ≠ name c2.

(** The classifier's contract on a table [t] and the two tables it
    returns. *)
Definition disjoint_names (tn tc : DataFrame) : Prop :=
  ∀ s, ¬ (s ∈ columns tn ∧ s ∈ columns tc).

Definition covers_kinds (t tn tc : DataFrame) : Prop :=
  ∀ s, (s ∈ columns tn ∨ s ∈ columns tc) ↔
       ∃ c, c ∈ t ∧ name c = s ∧
            (is_number (kind c) = true ∨ is_object (kind c) = true).

Definition excludes_other_kinds (t tn tc : DataFrame) : Prop :=
  ∀ c, c ∈ t → is_number (kind c) = false → is_object (kind c) = false →
       (c ∉ tn) ∧ (c ∉ tc).

Definition classifier_spec (t tn tc : DataFrame) : Prop :=
  disjoint_names tn tc ∧ covers_kinds t tn tc ∧ excludes_other_kinds t tn tc ∧
  sublist tn t ∧ sublist tc t.

(** [separar_df] returns references to two tables that meet the
    contract. *)
Definition separar_df_meets_spec (w : world) (df : ref) (t : DataFrame) : Prop :=
  ∃ w' rn rc tn tc,
    separar_df df w = (w', Ok (rn, rc)) ∧
    frames w' !! rn = Some tn ∧ frames w' !! rc = Some tc ∧
    classifier_spec t tn tc.

(** A computation keeps the tables: whatever it does, the heap it leaves
    starts with the heap it found, object by object. *)
Definition keeps_tables {A} (m : M A) : Prop :=
  ∀ w, frames w `prefix_of` frames (m w).1.

(** Nothing a call does touches a table that was there before it. *)
Definition table_kept {A} (m : M A) (w : world) (df : ref) (t : DataFrame)
    : Prop :=
  frames (m w).1 !! df = Some t ∧ frames w `prefix_of` frames (m w).1.

Definition tables_kept (w : world) (df : ref) (t : DataFrame) : Prop :=
  (table_kept (separar_df df) w df t ∧
   current (separar_df df w).1 = current w ∧
   trace (separar_df df w).1 = trace w) ∧
  (∀ r, table_kept (run_renderer r df) w df t) ∧
  table_kept (plot_matriz_correlacion df) w df t.

(** The failures of laying out and addressing a grid. *)
Definition is_layout_failure (e : exn) : bool :=
  match e with
  | ValueError_rows _ | ValueError_cols _ | IndexError _ | KeyError_axes _ => true
  | _ => false
  end.

(** The run ends without a layout failure. *)
Definition no_layout_failure {A} (res : world * result A) : Prop :=
  match res.2 with
  | Ok _ => True
  | Raise e => is_layout_failure e = false
  end.

(** The call raises the column-not-found error for [vr], and does so
    before it has addressed any cell of the grid it allocated. *)
Definition raises_column_not_found (w : world) (df : ref) (vr : string) : Prop :=
  ∃ w' r c,
    relacion_vr_categoricas df vr w = (w', Raise (KeyError_column vr)) ∧
    trace w' = trace w ++ [ESubplots r c].

(** The grid for [n] plots is there: a figure of ceil(n / 2) rows by 2
    columns, allocated by the first event of the call. *)
Definition allocates_grid (n : nat) (w w' : world) : Prop :=
  is_ceil_half n (rows_for n) ∧
  ∃ g evs, current w' = Some g ∧ nrows g = rows_for n ∧ ncols g = 2 ∧
           length (cells g) = Z.to_nat (rows_for n * 2) ∧
           trace w' = trace w ++ ESubplots (rows_for n) 2 :: evs.

(** The events of a complete run: the loop, which addresses the cells of
    the [n] plots only; then the deletion of the final cell of the grid if
    [n] is odd and nothing if it is even; then the layout. *)
Definition trailing_cell_rule (n : nat) (w w' : world) : Prop :=
  ∃ loop_evs tail,
    trace w' = trace w ++ ESubplots (rows_for n) 2 :: loop_evs ++ tail ++ [ETight] ∧
    below n loop_evs ∧
    (Nat.odd n = true →
       tail = [EIndex (cells_for n - 1); EDelaxes (cells_for n - 1)] ∧
       cell_in_figure (current w') (cells_for n - 1) = false) ∧
    (Nat.odd n = false → tail = []).

(** The final cell of the grid for [n] plots is not in the figure. *)
Definition final_cell_removed (n : nat) (w' : world) : Prop :=
  cell_in_figure (current w') (cells_for n - 1) = false.

(** C2 as it is stated, for one renderer on one table: the call returns,
    the grid is the one for the number of plots, and the final cell has
    been removed if and only if that number is odd. *)
Definition removed_iff_odd (r : renderer) (w : world) (df : ref)
    (t : DataFrame) : Prop :=
  let n := length (relevant r t) in
  ∃ w', run_renderer r df w = (w', Ok tt) ∧ allocates_grid n w w' ∧
        (final_cell_removed n w' ↔ Nat.odd n = true).

(** The loop itself removes the final cell when it is the cell of a column
    labelled with the response variable of [relacion_vr_numericas]. *)
Definition deleted_in_loop (r : renderer) (t : DataFrame) : Prop :=
  match r with
  | RelacionVrNumericas vr => last (relevant r t) = Some vr
  | _ => False
  end.

(** C2 as amended, for one renderer on one table: the grid is allocated
    in every run; when the call returns, the events after the loop follow
    the rule of the trailing cell, and the final cell is out of the figure
    exactly when the number of plots is odd or the loop itself removed it;
    and the call does return on a tidy table. *)
Definition grid_rule (r : renderer) (w : world) (df : ref) (t : DataFrame)
    : Prop :=
  let n := length (relevant r t) in
  let res := run_renderer r df w in
  allocates_grid n w res.1 ∧
  (∀ u, res.2 = Ok u →
        trailing_cell_rule n w res.1 ∧
        (final_cell_removed n res.1 ↔ Nat.odd n = true ∨ deleted_in_loop r t)) ∧
  (tidy r t → res.2 = Ok tt).

(** C6 for one renderer on one table: no exception of grid addressing, and
    every access of the trace is to a cell of the grid that is still in the
    figure. *)
Definition grid_addressing_safe (r : renderer) (w : world) (df : ref)
    (t : DataFrame) : Prop :=
  let n := length (relevant r t) in
  let res := run_renderer r df w in
  (∀ e, res.2 = Raise e → is_grid_error e = false) ∧
  ∃ evs, trace res.1 = trace w ++ ESubplots (rows_for n) 2 :: evs ∧
         trace_safe (cells_for n) [] evs = true.

(** A cell that holds a scatter chart. *)
Definition has_scatter (c : axes_cell) : bool :=
  existsb (λ a, match a with Scatterplot _ _ _ => true | _ => false end)
    (artists c).

(** C3 on one table: the call returns; the cell of every numeric column
    labelled [vr] has been deleted and holds no chart; the cell of every
    other numeric column is in the figure and holds the scatter chart of
    that column against [vr], drawn from the numeric subset; and the cells
    with a scatter chart number one less than the numeric columns. *)
Definition self_relation_rule (w : world) (df : ref) (t : DataFrame)
    (vr : string) : Prop :=
  let tn := select_dtypes_frame is_number t in
  ∃ w' g data,
    relacion_vr_numericas df vr w = (w', Ok tt) ∧
    current w' = Some g ∧ frames w' !! data = Some tn ∧
    (∀ i, columns tn !! i = Some vr → cells g !! i = Some (mkCell false [])) ∧
    (∀ i col, columns tn !! i = Some col → col ≠ vr →
       ∃ c, cells g !! i = Some c ∧ in_figure c = true ∧
            Scatterplot col vr data ∈ artists c) ∧
    length (filter (λ c, has_scatter c = true) (cells g))
    = (length (columns tn) - 1)%nat.

(** C3 as amended: what holds of the figure whenever the call returns. *)
Definition self_relation_on_return (w : world) (df : ref) (t : DataFrame)
    (vr : string) : Prop :=
  let tn := select_dtypes_frame is_number t in
  ∀ w', relacion_vr_numericas df vr w = (w', Ok tt) →
    ∃ g data,
      current w' = Some g ∧ frames w' !! data = Some tn ∧
      (∀ i, columns tn !! i = Some vr → cells g !! i = Some (mkCell false [])) ∧
      (∀ i col, columns tn !! i = Some col → col ≠ vr →
         ∃ c, cells g !! i = Some c ∧ in_figure c = true ∧
              Scatterplot col vr data ∈ artists c) ∧
      length (filter (λ c, has_scatter c = true) (cells g))
      = (length (columns tn) - 1)%nat.

(** The number of rows of a selection that fall in each category of
    [order]. *)
Definition frequencies (sel : list Series) (order : list category) : list nat :=
  (λ c, count_rows c (dropna (rows_of sel))) <$> order.

(** Each element is in relation [R] with the one before it. *)
Definition chain (R : nat → nat → Prop) (l : list nat) : Prop :=
  ∀ j a b, l !! j = Some a → l !! S j = Some b → R b a.

(** C5 on one table, with [R] the order required between the frequency of
    a bar and that of the bar before it: the call returns, and the cell of
    every object column holds its count plot, whose bars are the distinct
    categories of the column, each once, in an order in which the
    frequencies form a chain for [R]. *)
Definition bars_ordered (R : nat → nat → Prop) (w : world) (df : ref)
    (t : DataFrame) : Prop :=
  ∃ w' g,
    plot_categoricas df w = (w', Ok tt) ∧ current w' = Some g ∧
    ∀ i col, columns (select_dtypes_frame is_object t) !! i = Some col →
      ∃ c data order,
        cells g !! i = Some c ∧ in_figure c = true ∧
        Countplot col data order ∈ artists c ∧
        NoDup order ∧
        (∀ cat, cat ∈ order ↔ cat ∈ dropna (rows_of (getitem_frame t col))) ∧
        chain R (frequencies (getitem_frame t col) order).

(** C5 as amended: what holds of the bars whenever the call returns. *)
Definition bars_ordered_on_return (R : nat → nat → Prop) (w : world) (df : ref)
    (t : DataFrame) : Prop :=
  ∀ w', plot_categoricas df w = (w', Ok tt) →
    ∃ g, current w' = Some g ∧
    ∀ i col, columns (select_dtypes_frame is_object t) !! i = Some col →
      ∃ c data order,
        cells g !! i = Some c ∧ in_figure c = true ∧
        Countplot col data order ∈ artists c ∧
        NoDup order ∧
        (∀ cat, cat ∈ order ↔ cat ∈ dropna (rows_of (getitem_frame t col))) ∧
        chain R (frequencies (getitem_frame t col) order).


(** ** Further statements about the renderers *)

(** The figure a complete run over [n] columns leaves: the grid, with the
    cells [done] of the columns in order, followed when [n] is odd by the
    trailing cell, deleted and empty; the layout tightened. *)
Definition grid_figure (n : nat) (done : list axes_cell) : figure :=
  mkFigure (rows_for n) 2 (done ++ cleanup_cells n) true.

(** The call returns; [data] refers to the subset [sub] it plotted; the
    current figure is the grid with the cell [cell k col] for the column
    [col] at each position [k] of the subset, and nothing else. *)
Definition draws (m : M unit) (w : world) (data : ref) (sub : DataFrame)
    (cell : nat → string → axes_cell) : Prop :=
  ∃ w', m w = (w', Ok tt) ∧ frames w' !! data = Some sub ∧
        current w' = Some (grid_figure (length (columns sub))
                             (imap cell (columns sub))).

(** Whenever the call returns, that is what it leaves. *)
Definition draws_on_return (m : M unit) (w : world) (data : ref)
    (sub : DataFrame) (cell : nat → string → axes_cell) : Prop :=
  ∀ w', m w = (w', Ok tt) →
        frames w' !! data = Some sub ∧
        current w' = Some (grid_figure (length (columns sub))
                             (imap cell (columns sub))).

(** The call raises [e] in its first iteration: the grid is allocated,
    every cell of it is still blank and in the figure, and the trace holds
    the allocation followed by [evs]. *)
Definition raises_at_first_column (m : M unit) (w : world) (n : nat)
    (e : exn) (evs : list event) : Prop :=
  ∃ w' g, m w = (w', Raise e) ∧
          current w' = Some g ∧ nrows g = rows_for n ∧ ncols g = 2 ∧
          cells g = replicate (cells_for n) blank_cell ∧
          trace w' = trace w ++ ESubplots (rows_for n) 2 :: evs.

(** The columns of neither kind. *)
Definition is_other (d : dtype) : bool := negb (is_number d) && negb (is_object d).

(** [separar_df] as a split by position: two new table objects, distinct
    from each other and from every table that was there, the first made of
    exactly the numeric columns of the table and the second of exactly its
    object columns, both in the order of the table; no column in both; the
    numeric, the object and the remaining columns add up to the table. *)
Definition positional_split (w : world) (df : ref) (t : DataFrame) : Prop :=
  ∃ w' rn rc tn tc,
    separar_df df w = (w', Ok (rn, rc)) ∧
    frames w' = frames w ++ [tn; tc] ∧
    frames w' !! rn = Some tn ∧ frames w' !! rc = Some tc ∧
    rn ≠ rc ∧ (length (frames w) ≤ rn)%nat ∧ (length (frames w) ≤ rc)%nat ∧
    (∀ c, c ∈ tn ↔ c ∈ t ∧ is_number (kind c) = true) ∧
    (∀ c, c ∈ tc ↔ c ∈ t ∧ is_object (kind c) = true) ∧
    sublist tn t ∧ sublist tc t ∧
    (∀ c, ¬ (c ∈ tn ∧ c ∈ tc)) ∧
    (length tn + length tc + length (select_dtypes_frame is_other t))%nat
    = length t.

(** Classifying a result of [separar_df] again: the numeric subset is its
    own numeric subset and has no object column, and the other way round
    for the object subset. *)
Definition classify_twice (w : world) (df : ref) (t : DataFrame) : Prop :=
  ∃ w1 rn rc,
    separar_df df w = (w1, Ok (rn, rc)) ∧
    (∃ w2 rn' rc',
       separar_df rn w1 = (w2, Ok (rn', rc')) ∧
       frames w2 !! rn' = Some (select_dtypes_frame is_number t) ∧
       frames w2 !! rc' = Some []) ∧
    (∃ w2 rn' rc',
       separar_df rc w1 = (w2, Ok (rn', rc')) ∧
       frames w2 !! rn' = Some [] ∧
       frames w2 !! rc' = Some (select_dtypes_frame is_object t)).

(** The bars of the count plot of column [c], drawn in cell [i]: every bar
    is a value that occurs in the column and is not missing, every bar has
    a positive frequency, and the frequencies add up to the number of cells
    of the column that are not missing. *)
Definition bars_count_present (w : world) (df : ref) (i : nat) (c : Series)
    : Prop :=
  ∃ w' g cl data order,
    plot_categoricas df w = (w', Ok tt) ∧ current w' = Some g ∧
    cells g !! i = Some cl ∧ Countplot (name c) data order ∈ artists cl ∧
    (∀ cat, cat ∈ order → ∃ v, cat = [v] ∧ v ≠ Missing ∧ v ∈ values c) ∧
    Forall (λ f, 1 ≤ f)%nat (frequencies [c] order) ∧
    sum_list (frequencies [c] order)
    = length (filter (λ v, v ≠ Missing) (values c)).


(** * Proofs *)

(** ** Arithmetic of the grid *)

(** Names the quotient and the remainder of [a] by two and keeps only
    their defining facts. *)
Ltac halve a :=
  let q := fresh "q" in
  let r := fresh "r" in
  pose proof (Z.div_mod a 2 ltac:(lia));
  pose proof (Z.mod_pos_bound a 2 ltac:(lia));
  set (q := a `div` 2) in *; set (r := a `mod` 2) in *;
  clearbody q r.

Lemma math_ceil_half (a : Z) : math_ceil (true_div a 2) = (a + 1) `div` 2.
Proof.
  unfold math_ceil, true_div, Qceiling, Qfloor, Qdiv, Qmult, Qinv, Qopp, inject_Z.
  simpl. rewrite Z.mul_1_r.
  change (Z.pos (1 * 2)) with 2.
  halve (- a). halve (a + 1). lia.
Qed.

Lemma rows_for_bounds (n : nat) :
  Z.of_nat n ≤ 2 * rows_for n < Z.of_nat n + 2.
Proof.
  unfold rows_for. rewrite math_ceil_half.
  halve (Z.of_nat n + 1). lia.
Qed.

Lemma odd_mod2 (n : nat) : Z.of_nat n `mod` 2 ≠ 0 ↔ Nat.odd n = true.
Proof.
  rewrite Nat.odd_spec.
  halve (Z.of_nat n). split.
  - intros Hr. exists (Z.to_nat q). lia.
  - intros [k Hk]. lia.
Qed.

Lemma cells_for_odd (n : nat) : Nat.odd n = true → cells_for n = S n.
Proof.
  intros O. unfold cells_for. pose proof (rows_for_bounds n).
  apply odd_mod2 in O.
  assert (2 * rows_for n ≠ Z.of_nat n).
  { intros E. apply O. rewrite <- E, Z.mul_comm, Z.mod_mul; lia. }
  lia.
Qed.

Lemma cells_for_even (n : nat) : Nat.odd n = false → cells_for n = n.
Proof.
  intros O. unfold cells_for. pose proof (rows_for_bounds n).
  assert (Z.of_nat n `mod` 2 = 0) as E.
  { destruct (decide (Z.of_nat n `mod` 2 = 0)) as [|N]; [done|].
    apply odd_mod2 in N. congruence. }
  apply Z.mod_divide in E as [k E]; lia.
Qed.

Lemma cells_for_ge (n : nat) : (n ≤ cells_for n)%nat.
Proof.
  destruct (Nat.odd n) eqn:O.
  - rewrite cells_for_odd; [lia|done].
  - rewrite cells_for_even; [lia|done].
Qed.

Lemma rows_for_pos (n : nat) : (1 ≤ n)%nat → ¬ rows_for n ≤ 0.
Proof. pose proof (rows_for_bounds n). lia. Qed.

(** ** Replaying a trace *)

Lemma trace_safe_app total rem evs evs' :
  trace_safe total rem evs = true →
  (∀ rem', (∀ h, h ∈ rem' → h ∈ rem ∨ EDelaxes h ∈ evs) →
           trace_safe total rem' evs' = true) →
  trace_safe total rem (evs ++ evs') = true.
Proof.
  revert rem. induction evs as [|e evs IH]; intros rem Hs Hk; simpl.
  - apply Hk. intros h Hh. by left.
  - destruct e; simpl in Hs |- *.
    + apply IH; [done|]. intros rem' Hr. apply Hk. intros h Hh.
      destruct (Hr h Hh) as [?|?]; [by left|right; by constructor].
    + apply andb_true_iff in Hs as [Hs1 Hs2]. rewrite Hs1. simpl.
      apply IH; [done|]. intros rem' Hr. apply Hk. intros h Hh.
      destruct (Hr h Hh) as [?|?]; [by left|right; by constructor].
    + apply andb_true_iff in Hs as [Hs1 Hs2]. rewrite Hs1. simpl.
      apply IH; [done|]. intros rem' Hr. apply Hk. intros h Hh.
      destruct (Hr h Hh) as [Hin|?]; [|right; by constructor].
      apply elem_of_cons in Hin as [->|?]; [right; constructor|by left].
    + apply IH; [done|]. intros rem' Hr. apply Hk. intros h Hh.
      destruct (Hr h Hh) as [?|?]; [by left|right; by constructor].
Qed.

(** Events on a cell that no earlier event has reached can be appended:
    any number of accesses, then possibly its deletion. *)
Lemma trace_safe_extend total k evs (m : nat) (del : bool) :
  trace_safe total [] evs = true → below k evs → (k < total)%nat →
  trace_safe total [] (evs ++ replicate m (EIndex k)
                           ++ (if del then [EDelaxes k] else [])) = true.
Proof.
  intros Hs Hb Hk. apply trace_safe_app; [done|].
  intros rem' Hr.
  assert (k ∉ rem') as Hn.
  { intros Hin. destruct (Hr k Hin) as [Hin'|Hin']; [by apply elem_of_nil in Hin'|].
    unfold below in Hb. rewrite Forall_forall in Hb.
    specialize (Hb _ Hin' k eq_refl). lia. }
  induction m as [|m IH]; simpl.
  - destruct del; simpl; [|done].
    rewrite !bool_decide_eq_true_2 by done. done.
  - rewrite !bool_decide_eq_true_2 by done. simpl. apply IH.
Qed.

Lemma below_mono k k' evs : (k ≤ k')%nat → below k evs → below k' evs.
Proof.
  intros Hle Hb. unfold below in *. eapply Forall_impl; [exact Hb|].
  simpl. intros e He h Hh. specialize (He h Hh). lia.
Qed.

Lemma below_app k evs evs' : below k evs → below k evs' → below k (evs ++ evs').
Proof. intros. by apply Forall_app. Qed.

Lemma below_index k m : below (S k) (replicate m (EIndex k)).
Proof.
  induction m; simpl; constructor; [|done].
  intros h [= <-]. lia.
Qed.

Lemma below_extend k (m : nat) (del : bool) :
  below (S k) (replicate m (EIndex k) ++ (if del then [EDelaxes k] else [])).
Proof.
  apply below_app; [apply below_index|].
  destruct del; [|constructor].
  constructor; [|constructor]. intros h' [= <-]. lia.
Qed.

(** ** Running the primitives *)

Lemma bind_run {A B} (m : M A) (k : A → M B) w :
  bind m k w = match m w with
               | (w', Ok a) => k a w'
               | (w', Raise e) => (w', Raise e)
               end.
Proof. reflexivity. Qed.

Lemma py_getitem_nat {A} (l : list A) (k : nat) x w :
  l !! k = Some x → py_getitem l (Z.of_nat k) w = (w, Ok x).
Proof.
  intros Hl. unfold py_getitem. cbv zeta.
  destruct (decide (Z.of_nat k < 0)) as [|_]; [lia|].
  destruct (decide (Z.of_nat k < 0)) as [|_]; [lia|].
  rewrite Nat2Z.id, Hl. reflexivity.
Qed.

Lemma py_getitem_last {A} (l : list A) x w :
  l !! (length l - 1)%nat = Some x → py_getitem l (-1) w = (w, Ok x).
Proof.
  intros Hl. unfold py_getitem.
  assert (0 < length l)%nat by (apply lookup_lt_Some in Hl; lia).
  cbv zeta. destruct (decide (-1 < 0)) as [_|]; [|lia].
  destruct (decide (-1 + Z.of_nat (length l) < 0)) as [|_]; [lia|].
  replace (Z.to_nat (-1 + Z.of_nat (length l))) with (length l - 1)%nat by lia.
  rewrite Hl. reflexivity.
Qed.

Lemma alter_middle {A} (f : A → A) (l1 : list A) x l2 :
  alter f (length l1) (l1 ++ x :: l2) = l1 ++ f x :: l2.
Proof.
  replace (length l1) with (length l1 + 0)%nat by lia.
  by rewrite alter_app_r.
Qed.

Lemma lookup_middle {A} (l1 : list A) x l2 :
  (l1 ++ x :: l2) !! length l1 = Some x.
Proof. by rewrite list_lookup_middle. Qed.

Section Focus.
Variables (F : list DataFrame) (tr0 : list event) (n : nat).
Variables (done : list axes_cell) (cur : axes_cell) (evs : list event).
Variable k : nat.
Hypothesis at_k : length done = k.

Local Abbreviation W := (grid_world F tr0 n done cur).

Lemma focus_flat_getitem :
  (k < cells_for n)%nat →
  flat_getitem (seq 0 (cells_for n)) (Z.of_nat k) (W evs)
  = (W (evs ++ [EIndex k]), Ok k).
Proof.
  intros Hk. unfold flat_getitem. rewrite bind_run.
  rewrite (py_getitem_nat _ _ k) by (by rewrite lookup_seq_lt).
  unfold grid_world, bind, log, ret. simpl.
  by rewrite <- app_assoc.
Qed.

Lemma focus_on_axes a :
  on_axes k a (W evs) = (grid_world F tr0 n done (add_artist a cur) evs, Ok tt).
Proof.
  unfold on_axes, grid_world, bind, get_current, set_current, alter_cell. simpl.
  by rewrite <- at_k, alter_middle.
Qed.

Lemma focus_delaxes :
  in_figure cur = true →
  fig_delaxes k (W evs)
  = (grid_world F tr0 n done (mkCell false (artists cur)) (evs ++ [EDelaxes k]),
     Ok tt).
Proof.
  intros Hin.
  unfold fig_delaxes, grid_world, bind, get_current, set_current, alter_cell,
    cell_in_figure, log. simpl.
  rewrite <- at_k, lookup_middle, Hin. simpl.
  by rewrite alter_middle, <- app_assoc.
Qed.

Lemma focus_get_columns r :
  get_columns r (W evs) = (W evs, Ok (columns (default [] (F !! r)))).
Proof. reflexivity. Qed.

End Focus.

(** ** The loop rule *)

Lemma for_enumerate_from {A} (I : nat → world → Prop) (E : exn → world → Prop)
    (l : list A) (body : Z → A → M unit) :
  (∀ k x w, l !! k = Some x → I k w →
     match body (Z.of_nat k) x w with
     | (w', Ok _) => I (S k) w'
     | (w', Raise e) => E e w'
     end) →
  ∀ l' k w, (k ≤ length l)%nat → drop k l = l' → I k w →
    match for_enumerate (Z.of_nat k) l' body w with
    | (w', Ok _) => I (length l) w'
    | (w', Raise e) => E e w'
    end.
Proof.
  intros Hbody l'. induction l' as [|x l' IH]; intros k w Hle Hd HI; simpl.
  - apply (f_equal length) in Hd. rewrite length_drop in Hd. simpl in Hd.
    by replace (length l) with k by lia.
  - rewrite bind_run.
    assert (l !! k = Some x) as Hk.
    { rewrite <- (Nat.add_0_r k), <- lookup_drop, Hd. done. }
    specialize (Hbody k x w Hk HI).
    destruct (body (Z.of_nat k) x w) as [w1 [[]|e]]; [|done].
    replace (Z.of_nat k + 1) with (Z.of_nat (S k)) by lia.
    rewrite (drop_S _ _ _ Hk) in Hd. injection Hd as Hd.
    apply lookup_lt_Some in Hk.
    apply IH; [lia|done|done].
Qed.

Lemma for_enumerate_inv {A} (I : nat → world → Prop) (E : exn → world → Prop)
    (l : list A) (body : Z → A → M unit) w :
  (∀ k x w, l !! k = Some x → I k w →
     match body (Z.of_nat k) x w with
     | (w', Ok _) => I (S k) w'
     | (w', Raise e) => E e w'
     end) →
  I 0%nat w →
  match for_enumerate 0 l body w with
  | (w', Ok _) => I (length l) w'
  | (w', Raise e) => E e w'
  end.
Proof.
  intros Hbody HI.
  apply (for_enumerate_from I E l body Hbody l 0%nat w); [lia|done|done].
Qed.

(** ** The shared skeleton *)

Lemma grid_inv_focus F tr0 n done w :
  grid_inv F tr0 n done w → (length done < cells_for n)%nat →
  ∃ evs, w = grid_world F tr0 n done blank_cell evs ∧
         below (length done) evs ∧ trace_safe (cells_for n) [] evs = true.
Proof.
  intros (HF & Hc & evs & Ht & Hb & Hs) Hlt. exists evs. split; [|done].
  destruct w as [F' c' t']. simpl in *. subst. unfold grid_world.
  replace (cells_for n - length done)%nat
    with (S (cells_for n - S (length done))) by lia.
  done.
Qed.

Lemma grid_world_inv F tr0 n done c evs :
  below (S (length done)) evs → trace_safe (cells_for n) [] evs = true →
  grid_inv F tr0 n (done ++ [c]) (grid_world F tr0 n done c evs).
Proof.
  intros Hb Hs. unfold grid_inv, grid_world. simpl.
  rewrite length_app. simpl. rewrite Nat.add_1_r.
  split; [done|]. split; [by rewrite <- app_assoc|].
  by exists evs.
Qed.

Lemma grid_world_alloc F tr0 n done c evs :
  (length done < cells_for n)%nat → trace_safe (cells_for n) [] evs = true →
  grid_alloc F tr0 n (grid_world F tr0 n done c evs).
Proof.
  intros Hlt Hs. unfold grid_alloc, grid_world. simpl.
  split; [done|]. split; [|by exists evs].
  eexists. split; [done|]. simpl. repeat split.
  rewrite length_app. simpl. rewrite length_replicate. lia.
Qed.

Section Skeleton.
Variables (F : list DataFrame) (tr0 : list event) (cols : list string).
Variable body : flatiter → Z → string → M unit.
Variable expected : nat → string → axes_cell.
Variable allowed : exn → Prop.

Local Abbreviation n := (length cols).

(** One iteration, started on a blank cell with a safe trace that has not
    reached the cell, leaves the expected cell and a safe trace that has
    not gone beyond it, or raises an allowed exception with the grid
    intact. *)
Hypothesis body_step : ∀ k col evs,
  cols !! k = Some col →
  below k evs → trace_safe (cells_for n) [] evs = true →
  match body (seq 0 (cells_for n)) (Z.of_nat k) col
          (grid_world F tr0 n (imap expected (take k cols)) blank_cell evs) with
  | (w', Ok _) =>
      ∃ evs', w' = grid_world F tr0 n (imap expected (take k cols))
                     (expected k col) evs' ∧
              below (S k) evs' ∧ trace_safe (cells_for n) [] evs' = true
  | (w', Raise e) => allowed e ∧ grid_alloc F tr0 n w'
  end.

Lemma length_done k : (k ≤ n)%nat → length (imap expected (take k cols)) = k.
Proof. intros. rewrite length_imap, length_take. lia. Qed.

Lemma done_snoc k col :
  cols !! k = Some col →
  imap expected (take (S k) cols) = imap expected (take k cols) ++ [expected k col].
Proof.
  intros Hk. rewrite (take_S_r _ _ _ Hk), imap_app. simpl.
  rewrite length_take. apply lookup_lt_Some in Hk.
  by replace (k `min` n + 0)%nat with k by lia.
Qed.

Lemma skeleton_loop w :
  grid_inv F tr0 n [] w →
  match for_enumerate 0 cols (body (seq 0 (cells_for n))) w with
  | (w', Ok _) => grid_inv F tr0 n (imap expected cols) w'
  | (w', Raise e) => allowed e ∧ grid_alloc F tr0 n w'
  end.
Proof.
  intros H0.
  pose proof (for_enumerate_inv
    (λ k w, grid_inv F tr0 n (imap expected (take k cols)) w)
    (λ e w, allowed e ∧ grid_alloc F tr0 n w)
    cols (body (seq 0 (cells_for n))) w) as Hloop.
  simpl in Hloop. rewrite firstn_all in Hloop. apply Hloop; [|done].
  clear Hloop H0 w. intros k col w Hk HI.
  pose proof (lookup_lt_Some _ _ _ Hk) as Hlt.
  pose proof (cells_for_ge n) as Hge.
  apply grid_inv_focus in HI as (evs & -> & Hb & Hs);
    [|rewrite length_done; lia].
  rewrite length_done in Hb by lia.
  pose proof (body_step k col evs Hk Hb Hs) as Hstep.
  destruct (body _ _ _ _) as [w' [[]|e]]; [|done].
  destruct Hstep as (evs' & -> & Hb' & Hs').
  rewrite (done_snoc _ _ Hk). apply grid_world_inv; [|done].
  by rewrite length_done by lia.
Qed.

Lemma skeleton_run w :
  frames w = F → trace w = tr0 → (1 ≤ n)%nat →
  match grid_skeleton cols body w with
  | (w', Ok _) => grid_done F tr0 n (imap expected cols) w'
  | (w', Raise e) => allowed e ∧ grid_alloc F tr0 n w'
  end.
Proof.
  intros HF Ht Hn. unfold grid_skeleton. cbv zeta.
  fold (rows_for n). rewrite bind_run.
  unfold plt_subplots, fig_subplots.
  destruct (decide (rows_for n ≤ 0)) as [Hr|_]; [by apply rows_for_pos in Hr|].
  destruct (decide (2 ≤ 0)) as [|_]; [lia|].
  fold (cells_for n).
  set (w1 := mkWorld F
               (Some (mkFigure (rows_for n) 2 (replicate (cells_for n) blank_cell) false))
               (tr0 ++ [ESubplots (rows_for n) 2])).
  assert (grid_inv F tr0 n [] w1) as H1.
  { unfold grid_inv, w1. simpl. rewrite Nat.sub_0_r. split; [done|]. split; [done|].
    exists []. split; [done|]. split; [constructor|done]. }
  replace ((plt_figure >> set_current _ >> log _ >> ret _) w)
    with (w1, Ok (seq 0 (cells_for n))).
  2:{ destruct w as [F' c' t']. simpl in *. subst. reflexivity. }
  cbv beta iota. rewrite bind_run.
  pose proof (skeleton_loop w1 H1) as Hloop.
  destruct (for_enumerate _ _ _ _) as [w2 [[]|e]]; [|done].
  destruct Hloop as (HF2 & Hc2 & evs & Ht2 & Hb2 & Hs2).
  rewrite length_imap in Hc2, Hb2.
  destruct w2 as [F2 c2 t2]. simpl in HF2, Hc2, Ht2. subst F2 c2 t2.
  rewrite bind_run.
  unfold grid_done, cleanup_cells, cleanup_events.
  destruct (Nat.odd n) eqn:Hodd.
  - destruct (decide (Z.of_nat n `mod` 2 ≠ 0)) as [_|Hne];
      [|by apply odd_mod2 in Hodd].
    pose proof (cells_for_odd n Hodd) as Hcf.
    rewrite Hcf. replace (S n - n)%nat with 1%nat by lia.
    unfold flat_getitem. rewrite !bind_run.
    rewrite (py_getitem_last _ n).
    2:{ rewrite length_seq. replace (S n - 1)%nat with n by lia.
        by rewrite lookup_seq_lt by lia. }
    unfold log, ret, fig_delaxes, get_current, set_current, bind, cell_in_figure,
      plt_tight_layout, alter_cell. simpl.
    assert ((imap expected cols ++ [blank_cell]) !! n = Some blank_cell) as Hlk.
    { rewrite lookup_app_r by (rewrite length_imap; lia).
      by rewrite length_imap, Nat.sub_diag. }
    rewrite Hlk. simpl.
    rewrite alter_app_r_alt by (rewrite length_imap; lia).
    rewrite length_imap, Nat.sub_diag. simpl.
    split; [done|]. split; [done|].
    exists evs. rewrite <- !app_assoc. simpl. split; [done|]. split; [done|].
    change (evs ++ [EIndex n; EDelaxes n; ETight])
      with (evs ++ [EIndex n; EDelaxes n] ++ [ETight]).
    rewrite app_assoc. apply trace_safe_app; [|done].
    apply (trace_safe_extend (S n) n evs 1 true); [by rewrite <- Hcf|done|lia].
  - destruct (decide (Z.of_nat n `mod` 2 ≠ 0)) as [Hne|_].
    { apply odd_mod2 in Hne. congruence. }
    pose proof (cells_for_even n Hodd) as Hcf.
    rewrite Hcf, Nat.sub_diag. 
    unfold ret, bind, plt_tight_layout, get_current, set_current, log. simpl.
    split; [done|]. split; [done|].
    exists evs. split; [by rewrite <- app_assoc|]. split; [done|].
    apply trace_safe_app; [by rewrite <- Hcf|done].
Qed.
End Skeleton.

(** Rewrites the next primitive of a body run on a focused world. *)
Ltac focus_with lem :=
  rewrite bind_run; erewrite lem by eauto; cbv beta iota.

Ltac focus_index := focus_with focus_flat_getitem.
Ltac focus_paint := focus_with focus_on_axes.

(** Closes the goals a successful body leaves: the trace is the old one
    followed by [m] accesses to the cell, then its deletion if [del]. *)
Ltac close_body k evs m del :=
  eexists; split; [reflexivity|];
  rewrite <- ?app_assoc; simpl;
  split;
  [ apply below_app;
    [ eapply below_mono; [|eassumption]; lia
    | apply (below_extend k m del) ]
  | apply (trace_safe_extend _ k evs m del); [assumption|assumption|lia] ].

(** ** Each renderer on the skeleton *)

Lemma lookup_columns (t : DataFrame) k col :
  columns t !! k = Some col → col ∈ columns t.
Proof. intros H. apply list_elem_of_lookup. eauto. Qed.

Lemma select_dtypes_run df incl w t :
  frames w !! df = Some t →
  select_dtypes df incl w
  = (mkWorld (frames w ++ [select_dtypes_frame incl t]) (current w) (trace w),
     Ok (length (frames w))).
Proof. intros Ht. unfold select_dtypes, alloc, deref. by rewrite Ht. Qed.

Lemma separar_df_run df w t :
  frames w !! df = Some t →
  separar_df df w
  = (mkWorld (frames w ++ [select_dtypes_frame is_number t;
                           select_dtypes_frame is_object t])
       (current w) (trace w),
     Ok (length (frames w), S (length (frames w)))).
Proof.
  intros Ht. unfold separar_df. rewrite bind_run, (select_dtypes_run _ _ _ t) by done.
  cbv beta iota. rewrite bind_run, (select_dtypes_run _ _ _ t).
  2:{ simpl. by apply lookup_app_l_Some. }
  cbv beta iota. unfold ret. simpl.
  by rewrite <- app_assoc, length_app, Nat.add_1_r.
Qed.

Lemma get_columns_run r w t :
  frames w !! r = Some t → get_columns r w = (w, Ok (columns t)).
Proof. intros Ht. unfold get_columns, deref. by rewrite Ht. Qed.

Lemma lookup_new_1 {A} (l : list A) x rest : (l ++ x :: rest) !! length l = Some x.
Proof. apply lookup_middle. Qed.

Lemma lookup_new_2 {A} (l : list A) x y rest :
  (l ++ x :: y :: rest) !! S (length l) = Some y.
Proof.
  rewrite lookup_app_r by lia. by replace (S (length l) - length l)%nat with 1%nat by lia.
Qed.

(** Selections of a table. *)

Lemma columns_select incl (t : DataFrame) col :
  col ∈ columns (select_dtypes_frame incl t) → col ∈ columns t.
Proof.
  unfold columns, select_dtypes_frame. rewrite !list_elem_of_fmap.
  intros (c & -> & Hc). apply list_elem_of_filter in Hc as [_ Hc]. eauto.
Qed.

Lemma getitem_nonempty (t : DataFrame) col :
  col ∈ columns t → getitem_frame t col ≠ [].
Proof.
  unfold columns. rewrite list_elem_of_fmap. intros (c & -> & Hc) Hnil.
  assert (c ∈ getitem_frame t (name c)) as Hin
    by (by apply list_elem_of_filter).
  rewrite Hnil in Hin. by apply elem_of_nil in Hin.
Qed.

Lemma getitem_empty (t : DataFrame) col :
  col ∉ columns t → getitem_frame t col = [].
Proof.
  intros Hn. destruct (getitem_frame t col) as [|c sel] eqn:Hsel; [done|].
  exfalso. apply Hn.
  assert (c ∈ getitem_frame t col) as Hin by (rewrite Hsel; left).
  apply list_elem_of_filter in Hin as [<- Hin].
  unfold columns. apply list_elem_of_fmap. eauto.
Qed.

Lemma getitem_select incl (t : DataFrame) col :
  getitem_frame (select_dtypes_frame incl t) col
  = filter (λ c, incl (kind c) = true) (getitem_frame t col).
Proof.
  unfold getitem_frame, select_dtypes_frame.
  induction t as [|c t IH]; [done|].
  rewrite !filter_cons.
  destruct (decide (incl (kind c) = true)); destruct (decide (name c = col));
    rewrite ?filter_cons; repeat case_decide; try done; by rewrite IH.
Qed.

(** A label that selects one column of a table selects the same column of
    every selection that has the label. *)
Lemma single_select incl (t : DataFrame) col :
  single t col → col ∈ columns (select_dtypes_frame incl t) →
  single (select_dtypes_frame incl t) col.
Proof.
  unfold single. intros Hs Hin. apply getitem_nonempty in Hin.
  rewrite getitem_select in Hin |- *.
  destruct (getitem_frame t col) as [|c [|c' sel]]; try done.
  rewrite filter_cons in Hin |- *. by case_decide.
Qed.

Lemma single_inv (t : DataFrame) col :
  single t col ↔ ∃ c, getitem_frame t col = [c].
Proof.
  unfold single. destruct (getitem_frame t col) as [|c [|c' sel]]; split;
    try done; try (intros [? [=]]); eauto.
Qed.

(** ** The checks of the collaborators *)

Lemma sns_assign_run data vars w t :
  frames w !! data = Some t →
  sns_assign data vars w = (w, assign_variables vars t).
Proof. intros Ht. unfold sns_assign, lift_check, deref. by rewrite Ht. Qed.

Lemma lift_check_run data f w t :
  frames w !! data = Some t → lift_check data f w = (w, f t).
Proof. intros Ht. unfold lift_check, deref. by rewrite Ht. Qed.

Lemma assign_one_cases (t : DataFrame) v :
  (single t v ∧ assign_variables [v] t = Ok tt) ∨
  (¬ single t v ∧ ∃ e, assign_variables [v] t = Raise e ∧ is_grid_error e = false).
Proof.
  unfold single, assign_variables. simpl.
  destruct (getitem_frame t v) as [|c [|c' sel]]; simpl.
  - right. split; [done|]. eauto.
  - left. done.
  - right. split; [done|]. eauto.
Qed.

Lemma assign_two_cases (t : DataFrame) x y :
  (single t x ∧ single t y ∧ assign_variables [x; y] t = Ok tt) ∨
  (¬ (single t x ∧ single t y) ∧
   ∃ e, assign_variables [x; y] t = Raise e ∧ is_grid_error e = false).
Proof.
  unfold single, assign_variables. simpl.
  destruct (getitem_frame t x) as [|c [|c' sel]];
    destruct (getitem_frame t y) as [|d [|d' sel']]; simpl;
    first [ left; done | right; split; [by intros [? ?]|eauto] ].
Qed.

Lemma assign_absent (t : DataFrame) x y :
  x ∈ columns t → y ∉ columns t →
  assign_variables [x; y] t = Raise (ValueError_interpret y).
Proof.
  intros Hx Hy. apply getitem_nonempty in Hx. apply getitem_empty in Hy.
  unfold assign_variables. simpl. rewrite Hy.
  by destruct (getitem_frame t x).
Qed.

Lemma box_data_cases (t : DataFrame) x c :
  getitem_frame t x = [c] →
  (has_data c ∧ box_data x t = Ok tt) ∨
  (¬ has_data c ∧ box_data x t = Raise (ValueError_no_data x)).
Proof.
  intros Hsel. unfold box_data, has_data. rewrite Hsel.
  destruct (decide (Forall (λ v, v = Missing) (values c))); [right|left]; tauto.
Qed.

Lemma check_bins_cases bins w :
  (0 < bins ∧ check_bins bins w = (w, Ok tt)) ∨
  (¬ 0 < bins ∧ check_bins bins w = (w, Raise (ValueError_bins bins))).
Proof.
  unfold check_bins. destruct (decide (bins ≤ 0)); [right|left]; split;
    try done; lia.
Qed.

Lemma value_counts_index_cases df col w t :
  frames w !! df = Some t → col ∈ columns t →
  (∃ c, getitem_frame t col = [c] ∧
        value_counts_index df col w = (w, Ok (value_counts [c]).*1)) ∨
  (¬ single t col ∧
   value_counts_index df col w = (w, Raise (ValueError_grouper col))).
Proof.
  intros Ht Hin. apply getitem_nonempty in Hin.
  unfold value_counts_index, deref, single. rewrite Ht. simpl.
  destruct (getitem_frame t col) as [|c [|c' sel]]; [done|left; eauto|right].
  done.
Qed.

Lemma df_groupby_cases df col w t :
  frames w !! df = Some t → col ∈ columns t →
  (single t col ∧ df_groupby df col w = (w, Ok (mkGroupBy df col))) ∨
  (¬ single t col ∧ df_groupby df col w = (w, Raise (ValueError_grouper col))).
Proof.
  intros Ht Hin. apply getitem_nonempty in Hin.
  unfold df_groupby, deref, single. rewrite Ht. simpl.
  destruct (getitem_frame t col) as [|c [|c' sel]]; [done|by left|by right].
Qed.

Lemma groupby_getitem_run df col vr w t :
  frames w !! df = Some t →
  groupby_getitem (mkGroupBy df col) vr w
  = (w, if decide (vr ∈ columns t) then Ok (mkGroupBy df col, vr)
        else Raise (KeyError_column vr)).
Proof.
  intros Ht. unfold groupby_getitem, bind, get_columns, deref. simpl.
  rewrite Ht. simpl. by destruct (decide (vr ∈ columns t)).
Qed.

Lemma gb_mean_cases df col vr w t :
  frames w !! df = Some t →
  ((∃ c, getitem_frame t vr = [c] ∧ no_mean (kind c) = false) ∧
   gb_mean_sorted_reset (mkGroupBy df col, vr) w = (w, Ok (mkGrouped df col vr))) ∨
  (¬ (∃ c, getitem_frame t vr = [c] ∧ no_mean (kind c) = false) ∧
   ∃ e, gb_mean_sorted_reset (mkGroupBy df col, vr) w = (w, Raise e) ∧
        is_grid_error e = false).
Proof.
  intros Ht. unfold gb_mean_sorted_reset, deref. simpl. rewrite Ht. simpl.
  destruct (getitem_frame t vr) as [|c [|c' sel]].
  - right. split; [by intros (? & [=] & _)|eauto].
  - destruct (no_mean (kind c)) eqn:Hm.
    + right. split; [|eauto]. intros (c0 & [= <-] & Hc0). congruence.
    + left. split; [eauto|done].
  - right. split; [by intros (? & [=] & _)|].
    match goal with |- context [if ?b then _ else _] => destruct b end; eauto.
Qed.

(** Closes the goals a body leaves when it raises after [m] accesses to
    its cell. *)
Ltac raise_body k evs m :=
  apply grid_world_alloc;
  [ lia
  | first [ assumption
          | apply (trace_safe_extend _ k evs m false); [assumption|assumption|lia] ] ].

Section Numericas.
Variables (w : world) (df : ref) (t : DataFrame) (nbins : Z).
Hypothesis df_t : frames w !! df = Some t.

Local Abbreviation tn := (select_dtypes_frame is_number t).
Local Abbreviation tc := (select_dtypes_frame is_object t).
Local Abbreviation df_num := (length (frames w)).
Local Abbreviation F := (frames w ++ [tn; tc]).
Local Abbreviation n := (length (columns tn)).

Lemma plot_numericas_unfold :
  plot_numericas df nbins w
  = grid_skeleton (columns tn) (numericas_body df_num nbins)
      (mkWorld F (current w) (trace w)).
Proof.
  unfold plot_numericas. rewrite bind_run, (separar_df_run _ _ t) by done.
  cbv beta iota. rewrite bind_run. simpl fst.
  rewrite (get_columns_run _ _ tn) by apply lookup_new_1.
  reflexivity.
Qed.

Lemma numericas_step k col evs :
  columns tn !! k = Some col →
  below k evs → trace_safe (cells_for n) [] evs = true →
  match numericas_body df_num nbins (seq 0 (cells_for n)) (Z.of_nat k) col
          (grid_world F (trace w) n
             (imap (numericas_cell df_num nbins) (take k (columns tn)))
             blank_cell evs) with
  | (w', Ok _) =>
      ∃ evs', w' = grid_world F (trace w) n
                     (imap (numericas_cell df_num nbins) (take k (columns tn)))
                     (numericas_cell df_num nbins k col) evs' ∧
              below (S k) evs' ∧ trace_safe (cells_for n) [] evs' = true
  | (w', Raise e) =>
      (is_grid_error e = false ∧ ¬ paints (PlotNumericas nbins) t) ∧
      grid_alloc F (trace w) n w'
  end.
Proof.
  intros Hk Hb Hs.
  pose proof (lookup_lt_Some _ _ _ Hk) as Hlt.
  pose proof (cells_for_ge n) as Hge.
  assert (length (imap (numericas_cell df_num nbins) (take k (columns tn))) = k)
    as Hlen by (rewrite length_imap, length_take; lia).
  assert (k < cells_for n)%nat as Hk' by lia.
  pose proof (lookup_columns _ _ _ Hk) as Hin.
  unfold numericas_body.
  focus_index. unfold sns_histplot. rewrite !bind_run.
  erewrite (sns_assign_run _ _ _ tn) by apply lookup_new_1.
  destruct (assign_one_cases tn col) as [[Hone ->]|[Hone (e & -> & He)]].
  2:{ split; [|raise_body k evs 1%nat].
      split; [done|]. intros [_ Hp]. by apply Hone, Hp. }
  cbv beta iota. rewrite bind_run.
  match goal with
  | |- context [check_bins nbins ?w0] =>
      destruct (check_bins_cases nbins w0) as [[Hbins ->]|[Hbins ->]]
  end.
  2:{ split; [|raise_body k evs 1%nat].
      split; [done|]. by intros [Hp _]. }
  cbv beta iota. erewrite focus_on_axes by done. cbv beta iota.
  focus_index. unfold set_title. focus_paint.
  focus_index. unfold set_xlabel. erewrite focus_on_axes by done.
  close_body k evs 3%nat false.
Qed.

Lemma plot_numericas_run :
  (1 ≤ n)%nat →
  match plot_numericas df nbins w with
  | (w', Ok _) =>
      grid_done F (trace w) n (imap (numericas_cell df_num nbins) (columns tn)) w'
  | (w', Raise e) =>
      (is_grid_error e = false ∧ ¬ paints (PlotNumericas nbins) t) ∧
      grid_alloc F (trace w) n w'
  end.
Proof.
  intros Hn. rewrite plot_numericas_unfold.
  apply (skeleton_run F (trace w) (columns tn) (numericas_body df_num nbins)
    (numericas_cell df_num nbins)
    (λ e, is_grid_error e = false ∧ ¬ paints (PlotNumericas nbins) t)
    numericas_step (mkWorld F (current w) (trace w)) eq_refl eq_refl Hn).
Qed.
End Numericas.

Section Categoricas.
Variables (w : world) (df : ref) (t : DataFrame).
Hypothesis df_t : frames w !! df = Some t.

Local Abbreviation tn := (select_dtypes_frame is_number t).
Local Abbreviation tc := (select_dtypes_frame is_object t).
Local Abbreviation df_cat := (S (length (frames w))).
Local Abbreviation F := (frames w ++ [tn; tc]).
Local Abbreviation n := (length (columns tc)).

Lemma plot_categoricas_unfold :
  plot_categoricas df w
  = grid_skeleton (columns tc) (categoricas_body df df_cat)
      (mkWorld F (current w) (trace w)).
Proof.
  unfold plot_categoricas. rewrite bind_run, (separar_df_run _ _ t) by done.
  cbv beta iota. rewrite bind_run. simpl snd.
  rewrite (get_columns_run _ _ tc) by apply lookup_new_2.
  reflexivity.
Qed.

Lemma categoricas_step k col evs :
  columns tc !! k = Some col →
  below k evs → trace_safe (cells_for n) [] evs = true →
  match categoricas_body df df_cat (seq 0 (cells_for n)) (Z.of_nat k) col
          (grid_world F (trace w) n
             (imap (categoricas_cell t df_cat) (take k (columns tc)))
             blank_cell evs) with
  | (w', Ok _) =>
      ∃ evs', w' = grid_world F (trace w) n
                     (imap (categoricas_cell t df_cat) (take k (columns tc)))
                     (categoricas_cell t df_cat k col) evs' ∧
              below (S k) evs' ∧ trace_safe (cells_for n) [] evs' = true
  | (w', Raise e) =>
      (is_grid_error e = false ∧ ¬ paints PlotCategoricas t) ∧
      grid_alloc F (trace w) n w'
  end.
Proof.
  intros Hk Hb Hs.
  pose proof (lookup_lt_Some _ _ _ Hk) as Hlt.
  pose proof (cells_for_ge n) as Hge.
  assert (length (imap (categoricas_cell t df_cat) (take k (columns tc))) = k)
    as Hlen by (rewrite length_imap, length_take; lia).
  assert (k < cells_for n)%nat as Hk' by lia.
  assert (F !! df = Some t) as HFdf by (by apply lookup_app_l_Some).
  pose proof (lookup_columns _ _ _ Hk) as Hin.
  pose proof (columns_select _ _ _ Hin) as Hin'.
  unfold categoricas_body.
  focus_index. rewrite bind_run.
  match goal with
  | |- context [value_counts_index df col ?w0] =>
      destruct (value_counts_index_cases df col w0 t HFdf Hin')
        as [(c & Hsel & ->)|[Hone ->]]
  end.
  2:{ split; [|raise_body k evs 1%nat].
      split; [done|]. intros Hp. by apply Hone, Hp. }
  cbv beta iota. unfold sns_countplot. rewrite !bind_run.
  erewrite (sns_assign_run _ _ _ tc) by apply lookup_new_2.
  destruct (assign_one_cases tc col) as [[Hone ->]|[Hone (e & -> & He)]].
  2:{ split; [|raise_body k evs 1%nat].
      split; [done|]. intros Hp. apply Hone, single_select; [|done].
      by apply Hp. }
  cbv beta iota. erewrite focus_on_axes by done. cbv beta iota.
  focus_index. unfold set_title. focus_paint.
  focus_index. unfold set_xlabel. focus_paint.
  focus_index. unfold tick_params_x_rotation. erewrite focus_on_axes by done.
  unfold categoricas_cell. rewrite Hsel.
  close_body k evs 4%nat false.
Qed.

Lemma plot_categoricas_run :
  (1 ≤ n)%nat →
  match plot_categoricas df w with
  | (w', Ok _) =>
      grid_done F (trace w) n (imap (categoricas_cell t df_cat) (columns tc)) w'
  | (w', Raise e) =>
      (is_grid_error e = false ∧ ¬ paints PlotCategoricas t) ∧
      grid_alloc F (trace w) n w'
  end.
Proof.
  intros Hn. rewrite plot_categoricas_unfold.
  apply (skeleton_run F (trace w) (columns tc) (categoricas_body df df_cat)
    (categoricas_cell t df_cat)
    (λ e, is_grid_error e = false ∧ ¬ paints PlotCategoricas t)
    categoricas_step (mkWorld F (current w) (trace w)) eq_refl eq_refl Hn).
Qed.
End Categoricas.

Section VrCategoricas.
Variables (w : world) (df : ref) (t : DataFrame) (vr : string).
Hypothesis df_t : frames w !! df = Some t.

Local Abbreviation tc := (select_dtypes_frame is_object t).
Local Abbreviation df_cat := (length (frames w)).
Local Abbreviation F := (frames w ++ [tc]).
Local Abbreviation n := (length (columns tc)).

Lemma relacion_vr_categoricas_unfold :
  relacion_vr_categoricas df vr w
  = grid_skeleton (columns tc) (vr_categoricas_body df vr)
      (mkWorld F (current w) (trace w)).
Proof.
  unfold relacion_vr_categoricas.
  rewrite bind_run, (select_dtypes_run _ _ _ t) by done.
  cbv beta iota. rewrite bind_run.
  rewrite (get_columns_run _ _ tc) by apply lookup_new_1.
  reflexivity.
Qed.

Lemma vr_categoricas_step k col evs :
  columns tc !! k = Some col →
  below k evs → trace_safe (cells_for n) [] evs = true →
  match vr_categoricas_body df vr (seq 0 (cells_for n)) (Z.of_nat k) col
          (grid_world F (trace w) n
             (imap (vr_categoricas_cell df vr) (take k (columns tc)))
             blank_cell evs) with
  | (w', Ok _) =>
      ∃ evs', w' = grid_world F (trace w) n
                     (imap (vr_categoricas_cell df vr) (take k (columns tc)))
                     (vr_categoricas_cell df vr k col) evs' ∧
              below (S k) evs' ∧ trace_safe (cells_for n) [] evs' = true
  | (w', Raise e) =>
      (is_grid_error e = false ∧ ¬ paints (RelacionVrCategoricas vr) t) ∧
      grid_alloc F (trace w) n w'
  end.
Proof.
  intros Hk Hb Hs.
  pose proof (lookup_lt_Some _ _ _ Hk) as Hlt.
  pose proof (cells_for_ge n) as Hge.
  assert (length (imap (vr_categoricas_cell df vr) (take k (columns tc))) = k)
    as Hlen by (rewrite length_imap, length_take; lia).
  assert (k < cells_for n)%nat as Hk' by lia.
  assert (F !! df = Some t) as HFdf by (by apply lookup_app_l_Some).
  pose proof (lookup_columns _ _ _ Hk) as Hin.
  pose proof (columns_select _ _ _ Hin) as Hin'.
  unfold vr_categoricas_body. rewrite bind_run.
  match goal with
  | |- context [df_groupby df col ?w0] =>
      destruct (df_groupby_cases df col w0 t HFdf Hin') as [[Hone ->]|[Hone ->]]
  end.
  2:{ split; [|raise_body k evs 0%nat].
      split; [done|]. intros [Hp _]. by apply Hone, Hp. }
  cbv beta iota. rewrite bind_run.
  match goal with
  | |- context [groupby_getitem _ vr ?w0] =>
      rewrite (groupby_getitem_run df col vr w0 t HFdf)
  end.
  destruct (decide (vr ∈ columns t)) as [Hvr|Hvr].
  2:{ split; [|raise_body k evs 0%nat].
      split; [done|]. intros [_ (c & Hc & _)].
      apply getitem_empty in Hvr. congruence. }
  cbv beta iota. rewrite bind_run.
  match goal with
  | |- context [gb_mean_sorted_reset _ ?w0] =>
      destruct (gb_mean_cases df col vr w0 t HFdf)
        as [[Hm ->]|[Hm (e & -> & He)]]
  end.
  2:{ split; [|raise_body k evs 0%nat].
      split; [done|]. by intros [_ Hp]. }
  cbv beta iota.
  focus_index. unfold sns_barplot. focus_paint.
  focus_index. unfold set_title. focus_paint.
  focus_index. unfold set_xlabel. focus_paint.
  focus_index. unfold tick_params_x_rotation. erewrite focus_on_axes by done.
  close_body k evs 4%nat false.
Qed.

Lemma relacion_vr_categoricas_run :
  (1 ≤ n)%nat →
  match relacion_vr_categoricas df vr w with
  | (w', Ok _) =>
      grid_done F (trace w) n (imap (vr_categoricas_cell df vr) (columns tc)) w'
  | (w', Raise e) =>
      (is_grid_error e = false ∧ ¬ paints (RelacionVrCategoricas vr) t) ∧
      grid_alloc F (trace w) n w'
  end.
Proof.
  intros Hn. rewrite relacion_vr_categoricas_unfold.
  apply (skeleton_run F (trace w) (columns tc) (vr_categoricas_body df vr)
    (vr_categoricas_cell df vr)
    (λ e, is_grid_error e = false ∧ ¬ paints (RelacionVrCategoricas vr) t)
    vr_categoricas_step (mkWorld F (current w) (trace w)) eq_refl eq_refl Hn).
Qed.
End VrCategoricas.

Section VrNumericas.
Variables (w : world) (df : ref) (t : DataFrame) (vr : string).
Hypothesis df_t : frames w !! df = Some t.

Local Abbreviation tn := (select_dtypes_frame is_number t).
Local Abbreviation df_num := (length (frames w)).
Local Abbreviation F := (frames w ++ [tn]).
Local Abbreviation n := (length (columns tn)).

Lemma relacion_vr_numericas_unfold :
  relacion_vr_numericas df vr w
  = grid_skeleton (columns tn) (vr_numericas_body df_num vr)
      (mkWorld F (current w) (trace w)).
Proof.
  unfold relacion_vr_numericas.
  rewrite bind_run, (select_dtypes_run _ _ _ t) by done.
  cbv beta iota. rewrite bind_run.
  rewrite (get_columns_run _ _ tn) by apply lookup_new_1.
  reflexivity.
Qed.

Lemma vr_numericas_step k col evs :
  columns tn !! k = Some col →
  below k evs → trace_safe (cells_for n) [] evs = true →
  match vr_numericas_body df_num vr (seq 0 (cells_for n)) (Z.of_nat k) col
          (grid_world F (trace w) n
             (imap (vr_numericas_cell df_num vr) (take k (columns tn)))
             blank_cell evs) with
  | (w', Ok _) =>
      ∃ evs', w' = grid_world F (trace w) n
                     (imap (vr_numericas_cell df_num vr) (take k (columns tn)))
                     (vr_numericas_cell df_num vr k col) evs' ∧
              below (S k) evs' ∧ trace_safe (cells_for n) [] evs' = true
  | (w', Raise e) =>
      (is_grid_error e = false ∧ ¬ paints (RelacionVrNumericas vr) t) ∧
      grid_alloc F (trace w) n w'
  end.
Proof.
  intros Hk Hb Hs.
  pose proof (lookup_lt_Some _ _ _ Hk) as Hlt.
  pose proof (cells_for_ge n) as Hge.
  assert (length (imap (vr_numericas_cell df_num vr) (take k (columns tn))) = k)
    as Hlen by (rewrite length_imap, length_take; lia).
  assert (k < cells_for n)%nat as Hk' by lia.
  pose proof (lookup_columns _ _ _ Hk) as Hin.
  unfold vr_numericas_body, vr_numericas_cell at 3.
  destruct (decide (col = vr)) as [->|Hne].
  - focus_index. erewrite focus_delaxes by done. simpl artists.
    close_body k evs 1%nat true.
  - focus_index. unfold sns_scatterplot. rewrite !bind_run.
    erewrite (sns_assign_run _ _ _ tn) by apply lookup_new_1.
    destruct (assign_two_cases tn col vr)
      as [(Hc & Hv & ->)|[Hone (e & -> & He)]].
    2:{ split; [|raise_body k evs 1%nat].
        split; [done|]. intros Hp. by apply Hone, Hp. }
    cbv beta iota. erewrite focus_on_axes by done. cbv beta iota.
    focus_index. unfold set_title. focus_paint.
    focus_index. unfold set_xlabel. erewrite focus_on_axes by done.
    close_body k evs 3%nat false.
Qed.

Lemma relacion_vr_numericas_run :
  (1 ≤ n)%nat →
  match relacion_vr_numericas df vr w with
  | (w', Ok _) =>
      grid_done F (trace w) n (imap (vr_numericas_cell df_num vr) (columns tn)) w'
  | (w', Raise e) =>
      (is_grid_error e = false ∧ ¬ paints (RelacionVrNumericas vr) t) ∧
      grid_alloc F (trace w) n w'
  end.
Proof.
  intros Hn. rewrite relacion_vr_numericas_unfold.
  apply (skeleton_run F (trace w) (columns tn) (vr_numericas_body df_num vr)
    (vr_numericas_cell df_num vr)
    (λ e, is_grid_error e = false ∧ ¬ paints (RelacionVrNumericas vr) t)
    vr_numericas_step (mkWorld F (current w) (trace w)) eq_refl eq_refl Hn).
Qed.
End VrNumericas.

Section Outliers.
Variables (w : world) (df : ref) (t : DataFrame) (vr : string).
Hypothesis df_t : frames w !! df = Some t.

Local Abbreviation tn := (select_dtypes_frame is_number t).
Local Abbreviation df_num := (length (frames w)).
Local Abbreviation F := (frames w ++ [tn]).
Local Abbreviation n := (length (columns tn)).

Lemma detectar_outliers_unfold :
  detectar_outliers df vr w
  = grid_skeleton (columns tn)
      (outliers_body df_num (mako_color_list (Z.of_nat n)))
      (mkWorld F (current w) (trace w)).
Proof.
  unfold detectar_outliers.
  rewrite bind_run, (select_dtypes_run _ _ _ t) by done.
  cbv beta iota. rewrite bind_run.
  rewrite (get_columns_run _ _ tn) by apply lookup_new_1.
  reflexivity.
Qed.

Lemma mako_color_lookup (m k : nat) :
  (k < m)%nat →
  mako_color_list (Z.of_nat m) !! k = Some (Z.of_nat k, Z.of_nat m).
Proof.
  intros Hk. unfold mako_color_list.
  rewrite list_lookup_fmap, Nat2Z.id, lookup_seq_lt by done. done.
Qed.

Lemma outliers_step k col evs :
  columns tn !! k = Some col →
  below k evs → trace_safe (cells_for n) [] evs = true →
  match outliers_body df_num (mako_color_list (Z.of_nat n))
          (seq 0 (cells_for n)) (Z.of_nat k) col
          (grid_world F (trace w) n
             (imap (outliers_cell df_num n) (take k (columns tn)))
             blank_cell evs) with
  | (w', Ok _) =>
      ∃ evs', w' = grid_world F (trace w) n
                     (imap (outliers_cell df_num n) (take k (columns tn)))
                     (outliers_cell df_num n k col) evs' ∧
              below (S k) evs' ∧ trace_safe (cells_for n) [] evs' = true
  | (w', Raise e) =>
      (is_grid_error e = false ∧ ¬ paints (DetectarOutliers vr) t) ∧
      grid_alloc F (trace w) n w'
  end.
Proof.
  intros Hk Hb Hs.
  pose proof (lookup_lt_Some _ _ _ Hk) as Hlt.
  pose proof (cells_for_ge n) as Hge.
  assert (length (imap (outliers_cell df_num n) (take k (columns tn))) = k)
    as Hlen by (rewrite length_imap, length_take; lia).
  assert (k < cells_for n)%nat as Hk' by lia.
  pose proof (lookup_columns _ _ _ Hk) as Hin.
  unfold outliers_body.
  focus_index. rewrite bind_run.
  rewrite (py_getitem_nat _ _ _ _ (mako_color_lookup n k Hlt)).
  cbv beta iota. unfold sns_boxplot. rewrite !bind_run.
  erewrite (sns_assign_run _ _ _ tn) by apply lookup_new_1.
  destruct (assign_one_cases tn col) as [[Hone ->]|[Hone (e & -> & He)]].
  2:{ split; [|raise_body k evs 1%nat].
      split; [done|]. intros Hp. destruct (Hp col Hin) as (c & Hc & _).
      apply Hone, single_inv. eauto. }
  cbv beta iota. rewrite bind_run.
  erewrite (lift_check_run _ _ _ tn) by apply lookup_new_1.
  apply single_inv in Hone as [c Hsel].
  destruct (box_data_cases tn col c Hsel) as [[Hd ->]|[Hd ->]].
  2:{ split; [|raise_body k evs 1%nat].
      split; [done|]. intros Hp. destruct (Hp col Hin) as (c' & Hc' & Hd').
      rewrite Hsel in Hc'. injection Hc' as <-. done. }
  cbv beta iota. erewrite focus_on_axes by done. cbv beta iota.
  focus_index. unfold set_title. focus_paint.
  focus_index. unfold set_xlabel. erewrite focus_on_axes by done.
  close_body k evs 3%nat false.
Qed.

Lemma detectar_outliers_run :
  (1 ≤ n)%nat →
  match detectar_outliers df vr w with
  | (w', Ok _) =>
      grid_done F (trace w) n (imap (outliers_cell df_num n) (columns tn)) w'
  | (w', Raise e) =>
      (is_grid_error e = false ∧ ¬ paints (DetectarOutliers vr) t) ∧
      grid_alloc F (trace w) n w'
  end.
Proof.
  intros Hn. rewrite detectar_outliers_unfold.
  apply (skeleton_run F (trace w) (columns tn)
    (outliers_body df_num (mako_color_list (Z.of_nat n)))
    (outliers_cell df_num n)
    (λ e, is_grid_error e = false ∧ ¬ paints (DetectarOutliers vr) t)
    outliers_step (mkWorld F (current w) (trace w)) eq_refl eq_refl Hn).
Qed.
End Outliers.

(** * The classifier *)

Lemma select_dtypes_frame_elem incl (t : DataFrame) c :
  c ∈ select_dtypes_frame incl t ↔ incl (kind c) = true ∧ c ∈ t.
Proof. unfold select_dtypes_frame. by rewrite list_elem_of_filter. Qed.

Lemma number_not_object d : is_number d = true → is_object d = true → False.
Proof. by destruct d. Qed.

Lemma classifier_spec_holds (t : DataFrame) :
  kinds_share_no_label t →
  classifier_spec t (select_dtypes_frame is_number t)
    (select_dtypes_frame is_object t).
Proof.
  intros Hnd. repeat split.
  - intros s [Hn Hc]. unfold columns in Hn, Hc.
    apply list_elem_of_fmap in Hn as (c1 & -> & H1).
    apply list_elem_of_fmap in Hc as (c2 & Heq & H2).
    apply select_dtypes_frame_elem in H1 as [K1 H1], H2 as [K2 H2].
    by apply (Hnd c1 c2).
  - intros [H|H]; unfold columns in H;
      apply list_elem_of_fmap in H as (c & -> & Hc);
      apply select_dtypes_frame_elem in Hc as [K Hc]; exists c; eauto.
  - intros (c & Hc & <- & [K|K]); [left|right]; unfold columns;
      apply list_elem_of_fmap; exists c; split; try done;
      by apply select_dtypes_frame_elem.
  - intros Hin. apply select_dtypes_frame_elem in Hin as [K _]. congruence.
  - intros Hin. apply select_dtypes_frame_elem in Hin as [K _]. congruence.
  - apply sublist_filter.
  - apply sublist_filter.
Qed.

(** C1, as stated, fails on a table in which a numeric and an object
    column carry the same label: the label is in both subsets. *)
Lemma separar_df_shared_label :
  let t := [mkSeries "a" DInt [Number 1]; mkSeries "a" DObject [Text "x"]] in
  ¬ separar_df_meets_spec (world_of t) 0%nat t.
Proof.
  intros t (w' & rn & rc & tn & tc & Hrun & Hn & Hc & Hdis & _).
  vm_compute in Hrun. injection Hrun as <- <- <-.
  vm_compute in Hn, Hc. injection Hn as <-. injection Hc as <-.
  apply (Hdis "a"). split; unfold columns; simpl; constructor.
Qed.

(** C1 (amended): for every table in which no numeric column shares its
    label with an object column, [separar_df] returns two tables whose
    label sets are disjoint, whose labels together are those of the numeric
    and the object columns of the table, which hold no column of another
    kind, and which keep the columns in their original order.  The numeric
    columns are those of a kind below [np.number], the time differences
    among them. *)
Theorem separar_df_partition (w : world) (df : ref) (t : DataFrame) :
  frames w !! df = Some t → kinds_share_no_label t →
  separar_df_meets_spec w df t.
Proof.
  intros Ht Hnd. unfold separar_df_meets_spec.
  eexists _, _, _, _, _. split; [by apply separar_df_run|].
  simpl. split; [apply lookup_new_1|]. split; [apply lookup_new_2|].
  by apply classifier_spec_holds.
Qed.

Lemma separar_df_partition_witness :
  let t := [mkSeries "age" DInt [Number 1]; mkSeries "city" DObject [Text "x"];
            mkSeries "wait" DTimedelta [Number 5];
            mkSeries "city" DObject [Text "y"];
            mkSeries "age" DBool [Missing]] in
  separar_df_meets_spec (world_of t) 0%nat t.
Proof.
  intros t. apply separar_df_partition.
  - reflexivity.
  - intros c1 c2 H1 H2 K1 K2. unfold t in H1, H2.
    rewrite !elem_of_cons, elem_of_nil in H1, H2.
    destruct H1 as [->|[->|[->|[->|[->|[]]]]]]; try discriminate K1;
      destruct H2 as [->|[->|[->|[->|[->|[]]]]]]; try discriminate K2;
      discriminate.
Defined.

(** * No table is mutated *)

Create HintDb tables discriminated.

Lemma keeps_ret {A} (a : A) : keeps_tables (ret a).
Proof. intros w. done. Qed.

Lemma keeps_raise {A} e : keeps_tables (@raise A e).
Proof. intros w. done. Qed.

Lemma keeps_bind {A B} (m : M A) (k : A → M B) :
  keeps_tables m → (∀ a, keeps_tables (k a)) → keeps_tables (bind m k).
Proof.
  intros Hm Hk w. unfold bind. specialize (Hm w).
  destruct (m w) as [w1 [a|e]]; simpl in *; [|done].
  etrans; [exact Hm|apply Hk].
Qed.

Lemma keeps_if {A} (P : Prop) `{Decision P} (m1 m2 : M A) :
  keeps_tables m1 → keeps_tables m2 →
  keeps_tables (if decide P then m1 else m2).
Proof. by destruct (decide P). Qed.

Lemma keeps_if_bool {A} (b : bool) (m1 m2 : M A) :
  keeps_tables m1 → keeps_tables m2 → keeps_tables (if b then m1 else m2).
Proof. by destruct b. Qed.

Lemma keeps_for_enumerate {A} (l : list A) body i :
  (∀ i x, keeps_tables (body i x)) → keeps_tables (for_enumerate i l body).
Proof.
  intros Hb. revert i. induction l as [|x l IH]; intros i; simpl.
  - apply keeps_ret.
  - apply keeps_bind; [apply Hb|]. intros _. apply IH.
Qed.

Lemma keeps_log e : keeps_tables (log e).
Proof. intros w. done. Qed.

Lemma keeps_set_current f : keeps_tables (set_current f).
Proof. intros w. done. Qed.

Lemma keeps_get_current : keeps_tables get_current.
Proof. intros w. done. Qed.

Lemma keeps_alloc t : keeps_tables (alloc t).
Proof. intros w. simpl. by apply prefix_app_r. Qed.

Lemma keeps_select_dtypes df incl : keeps_tables (select_dtypes df incl).
Proof. intros w. unfold select_dtypes. apply keeps_alloc. Qed.

Lemma keeps_get_columns df : keeps_tables (get_columns df).
Proof. intros w. done. Qed.

Lemma keeps_py_getitem {A} (l : list A) i : keeps_tables (py_getitem l i).
Proof.
  unfold py_getitem. cbv zeta.
  destruct (decide _); [apply keeps_raise|].
  destruct (l !! _); [apply keeps_ret|apply keeps_raise].
Qed.

Lemma keeps_value_counts_index df col : keeps_tables (value_counts_index df col).
Proof.
  intros w. unfold value_counts_index.
  by destruct (getitem_frame _ _) as [|? [|? ?]].
Qed.

Lemma keeps_lift_check data f : keeps_tables (lift_check data f).
Proof. intros w. done. Qed.

Lemma keeps_check_bins bins : keeps_tables (check_bins bins).
Proof. intros w. unfold check_bins. by destruct (decide _). Qed.

Lemma keeps_gb_mean_sorted_reset s : keeps_tables (gb_mean_sorted_reset s).
Proof.
  intros w. unfold gb_mean_sorted_reset.
  destruct (getitem_frame _ _) as [|? [|? ?]]; [done| |];
    match goal with |- context [if ?b then _ else _] => by destruct b end.
Qed.

Lemma keeps_df_groupby df col : keeps_tables (df_groupby df col).
Proof.
  intros w. unfold df_groupby. by destruct (getitem_frame _ _) as [|? [|? ?]].
Qed.

Lemma keeps_df_corr df : keeps_tables (df_corr_numeric_only df).
Proof. intros w. done. Qed.

#[local] Hint Resolve keeps_ret keeps_raise keeps_log keeps_set_current
  keeps_get_current keeps_alloc keeps_select_dtypes keeps_get_columns
  keeps_py_getitem keeps_value_counts_index keeps_df_groupby keeps_df_corr
  keeps_lift_check keeps_check_bins keeps_gb_mean_sorted_reset
  : tables.

(** Splits a computation along its binds, branches and loops and closes
    the primitives from the hint base. *)
Ltac keeps :=
  repeat first
    [ progress intros
    | progress cbv beta
    | solve [auto with tables]
    | match goal with
      | |- keeps_tables (bind _ _) => apply keeps_bind
      | |- keeps_tables (for_enumerate _ _ _) => apply keeps_for_enumerate
      | |- keeps_tables (if decide _ then _ else _) => apply keeps_if
      | |- keeps_tables (if _ then _ else _) => apply keeps_if_bool
      end ].

Lemma keeps_flat_getitem axes i : keeps_tables (flat_getitem axes i).
Proof. unfold flat_getitem. keeps. Qed.

Lemma keeps_on_axes h a : keeps_tables (on_axes h a).
Proof. unfold on_axes. keeps. Qed.

Lemma keeps_fig_delaxes ax : keeps_tables (fig_delaxes ax).
Proof. unfold fig_delaxes. keeps. Qed.

Lemma keeps_tight_layout : keeps_tables plt_tight_layout.
Proof. unfold plt_tight_layout. keeps. Qed.

Lemma keeps_subplots r c : keeps_tables (plt_subplots r c).
Proof. unfold plt_subplots, fig_subplots, plt_figure. cbv zeta. keeps. Qed.

Lemma keeps_groupby_getitem g vr : keeps_tables (groupby_getitem g vr).
Proof. unfold groupby_getitem. keeps. Qed.

Lemma keeps_plt_gca : keeps_tables plt_gca.
Proof.
  unfold plt_gca. apply keeps_bind; [auto with tables|].
  intros [g|]; [destruct (cells g)|]; keeps.
Qed.

#[local] Hint Resolve keeps_flat_getitem keeps_on_axes keeps_fig_delaxes
  keeps_tight_layout keeps_subplots keeps_groupby_getitem
  keeps_plt_gca : tables.

Lemma keeps_separar_df df : keeps_tables (separar_df df).
Proof. unfold separar_df. keeps. Qed.

#[local] Hint Resolve keeps_separar_df : tables.

#[local] Hint Unfold set_title set_xlabel tick_params_x_rotation sns_histplot
  sns_countplot sns_barplot sns_scatterplot sns_boxplot sns_heatmap plt_figure
  sns_assign : tables.

Lemma keeps_run_renderer r df : keeps_tables (run_renderer r df).
Proof.
  destruct r; simpl;
    unfold plot_numericas, plot_categoricas, relacion_vr_categoricas,
      relacion_vr_numericas, detectar_outliers;
    cbv zeta; autounfold with tables; keeps.
Qed.

Lemma keeps_plot_matriz_correlacion df :
  keeps_tables (plot_matriz_correlacion df).
Proof.
  unfold plot_matriz_correlacion. cbv zeta. autounfold with tables. keeps.
Qed.

Lemma keeps_lookup {A} (m : M A) w df t :
  keeps_tables m → frames w !! df = Some t → frames (m w).1 !! df = Some t.
Proof.
  intros Hm Ht. destruct (Hm w) as [k ->]. by apply lookup_app_l_Some.
Qed.

(** C9: [separar_df], the five grid renderers and the correlation heat map
    leave every table of the heap, the caller's among them, as they found
    it; [separar_df] moreover leaves pyplot's figure and the trace alone:
    all it does is create its two result tables. *)
Theorem no_table_is_mutated (w : world) (df : ref) (t : DataFrame) :
  frames w !! df = Some t → tables_kept w df t.
Proof.
  intros Ht. split; [|split].
  - split; [|by rewrite (separar_df_run _ _ t)].
    split; [by apply keeps_lookup; [apply keeps_separar_df|]|].
    apply keeps_separar_df.
  - intros r. split; [by apply keeps_lookup; [apply keeps_run_renderer|]|].
    apply keeps_run_renderer.
  - split; [by apply keeps_lookup; [apply keeps_plot_matriz_correlacion|]|].
    apply keeps_plot_matriz_correlacion.
Qed.

Lemma no_table_is_mutated_witness :
  let t := [mkSeries "age" DInt [Number 1]; mkSeries "city" DObject [Text "x"]] in
  tables_kept (world_of t) 0%nat t.
Proof. intros t. apply no_table_is_mutated. reflexivity. Defined.

(** * The unused parameter *)

(** C10: [detectar_outliers] does the same whatever [vr] is: the world it
    leaves and its result do not depend on it. *)
Theorem detectar_outliers_ignores_vr (df : ref) (vr1 vr2 : string) (w : world) :
  detectar_outliers df vr1 w = detectar_outliers df vr2 w.
Proof. reflexivity. Qed.

(** * No columns to plot *)

Lemma grid_skeleton_empty body w :
  grid_skeleton [] body w
  = (mkWorld (frames w) (Some (mkFigure 0 0 [] false)) (trace w),
     Raise (ValueError_rows 0)).
Proof. reflexivity. Qed.

(** C8, as stated, fails: on a table without numeric columns
    [plot_numericas] ends in the layout failure of a grid of zero rows. *)
Lemma empty_table_layout_failure :
  ¬ no_layout_failure (run_renderer (PlotNumericas 20) 0%nat (world_of [])).
Proof. vm_compute. discriminate. Qed.

(** C8 (amended): when the table has no column of the kind a grid renderer
    plots, the renderer asks for a grid of zero rows, which the plotting
    library refuses: the call raises that error to the caller, leaving an
    empty figure behind, no cell addressed and the table as it was. *)
Theorem empty_subset_raises (r : renderer) (w : world) (df : ref) (t : DataFrame) :
  frames w !! df = Some t → relevant r t = [] →
  ∃ w', run_renderer r df w = (w', Raise (ValueError_rows 0)) ∧
        current w' = Some (mkFigure 0 0 [] false) ∧ trace w' = trace w ∧
        frames w' !! df = Some t.
Proof.
  intros Ht He.
  pose proof (keeps_lookup (run_renderer r df) w df t
                (keeps_run_renderer r df) Ht) as Hk.
  destruct r; simpl in He, Hk |- *.
  - rewrite (plot_numericas_unfold _ _ t) in * by done. rewrite He in *.
    rewrite grid_skeleton_empty in *. eauto.
  - rewrite (plot_categoricas_unfold _ _ t) in * by done. rewrite He in *.
    rewrite grid_skeleton_empty in *. eauto.
  - rewrite (relacion_vr_categoricas_unfold _ _ t) in * by done. rewrite He in *.
    rewrite grid_skeleton_empty in *. eauto.
  - rewrite (relacion_vr_numericas_unfold _ _ t) in * by done. rewrite He in *.
    rewrite grid_skeleton_empty in *. eauto.
  - rewrite (detectar_outliers_unfold _ _ t) in * by done. rewrite He in *.
    rewrite grid_skeleton_empty in *. eauto.
Qed.

Lemma empty_subset_raises_witness :
  let t := [mkSeries "city" DObject [Text "x"]] in
  ∃ w', run_renderer (DetectarOutliers "city") 0%nat (world_of t)
        = (w', Raise (ValueError_rows 0)) ∧
        current w' = Some (mkFigure 0 0 [] false) ∧
        trace w' = trace (world_of t) ∧
        frames w' !! 0%nat = Some t.
Proof.
  intros t. apply (empty_subset_raises (DetectarOutliers "city")); reflexivity.
Defined.

(** * A response variable that is not a column *)

Lemma vr_categoricas_body_missing df vr axes i col w (t : DataFrame) :
  frames w !! df = Some t →
  length (getitem_frame t col) = 1%nat →
  vr ∉ columns t →
  vr_categoricas_body df vr axes i col w = (w, Raise (KeyError_column vr)).
Proof.
  intros Ht Hsel Hvr. unfold vr_categoricas_body. rewrite bind_run.
  unfold df_groupby, deref. rewrite Ht. simpl default.
  destruct (getitem_frame t col) as [|c [|c' sel]]; [done| |done].
  cbv beta iota. rewrite bind_run. unfold groupby_getitem.
  rewrite bind_run, (get_columns_run _ _ t) by done. cbv beta iota.
  by rewrite decide_False.
Qed.

(** C7, as stated, fails on a table whose first object column shares its
    label with another column: grouping by that label is refused before the
    response variable is looked up. *)
Lemma repeated_label_other_error :
  let t := [mkSeries "a" DObject [Text "x"]; mkSeries "a" DObject [Text "y"]] in
  ¬ raises_column_not_found (world_of t) 0%nat "zz".
Proof.
  intros t (w' & r & c & Hrun & _). vm_compute in Hrun. discriminate.
Qed.

(** C7 (amended): when the label of the first object column of the table
    selects that column only (as every label does if the labels are
    pairwise distinct) and [vr] is not a column of the table,
    [relacion_vr_categoricas] raises the column-not-found error for [vr] to
    its caller, in the first iteration and before any cell of the grid is
    addressed. *)
Theorem missing_vr_raises (w : world) (df : ref) (t : DataFrame)
    (vr col : string) (rest : list string) :
  frames w !! df = Some t →
  columns (select_dtypes_frame is_object t) = col :: rest →
  length (getitem_frame t col) = 1%nat →
  vr ∉ columns t →
  raises_column_not_found w df vr.
Proof.
  intros Ht Hcols Hsel Hvr. unfold raises_column_not_found.
  rewrite (relacion_vr_categoricas_unfold _ _ t) by done.
  rewrite Hcols. unfold grid_skeleton. cbv zeta.
  set (n := length (col :: rest)).
  fold (rows_for n). rewrite bind_run. unfold plt_subplots, fig_subplots.
  destruct (decide (rows_for n ≤ 0)) as [Hr|_].
  { apply rows_for_pos in Hr; [done|]. unfold n. simpl. lia. }
  destruct (decide (2 ≤ 0)) as [|_]; [lia|].
  unfold plt_figure, set_current at 1 2, log at 1, ret at 1, bind at 1 2 3.
  cbn [frames current trace]. cbv beta iota.
  simpl for_enumerate. rewrite !bind_run.
  rewrite (vr_categoricas_body_missing _ _ _ _ _ _ t);
    [|by apply lookup_app_l_Some|done|done].
  cbv beta iota. eauto.
Qed.

Lemma missing_vr_raises_witness :
  let t := [mkSeries "age" DInt [Number 1]; mkSeries "city" DObject [Text "x"]] in
  raises_column_not_found (world_of t) 0%nat "income".
Proof.
  intros t. apply (missing_vr_raises _ _ t "income" "city" []).
  - reflexivity.
  - reflexivity.
  - reflexivity.
  - apply (bool_decide_unpack _). vm_compute. exact I.
Defined.

(** * The grid and its addressing *)

Lemma rows_for_is_ceil (n : nat) : is_ceil_half n (rows_for n).
Proof. unfold is_ceil_half. pose proof (rows_for_bounds n). lia. Qed.

Lemma grid_alloc_allocates F n w w' :
  grid_alloc F (trace w) n w' → allocates_grid n w w'.
Proof.
  intros (_ & (g & Hg & Hr & Hc & Hl) & evs & Ht & _).
  split; [apply rows_for_is_ceil|]. by exists g, evs.
Qed.

Lemma grid_done_alloc F tr0 n done w' :
  length done = n → grid_done F tr0 n done w' → grid_alloc F tr0 n w'.
Proof.
  intros Hlen (HF & Hc & evs & Ht & Hb & Hs).
  split; [done|]. split.
  - eexists. split; [exact Hc|]. simpl. repeat split.
    rewrite length_app, Hlen. unfold cleanup_cells.
    destruct (Nat.odd n) eqn:Ho; simpl.
    + rewrite cells_for_odd by done. lia.
    + rewrite cells_for_even by done. lia.
  - by exists (evs ++ cleanup_events n ++ [ETight]).
Qed.

Lemma grid_done_trailing F n done w w' :
  length done = n → grid_done F (trace w) n done w' → trailing_cell_rule n w w'.
Proof.
  intros Hlen (HF & Hc & evs & Ht & Hb & Hs).
  exists evs, (cleanup_events n). split; [done|]. split; [done|].
  unfold cleanup_events, cleanup_cells in *. split.
  - intros Ho. rewrite Ho in *. rewrite cells_for_odd by done.
    replace (S n - 1)%nat with n by lia. split; [done|].
    rewrite Hc. simpl. rewrite <- Hlen, lookup_middle. done.
  - intros Ho. by rewrite Ho.
Qed.

(** The five renderers, seen through the skeleton: a run that returns
    leaves the grid with the cell of every column; a run that raises does
    so in a check the table fails, never in the grid, which is allocated
    and was addressed safely. *)
Lemma run_renderer_cases (r : renderer) (w : world) (df : ref) (t : DataFrame) :
  frames w !! df = Some t → (1 ≤ length (relevant r t))%nat →
  ∃ F,
    match run_renderer r df w with
    | (w', Ok u) =>
        u = tt ∧
        grid_done F (trace w) (length (relevant r t))
          (imap (cell_of r (length (frames w)) df t) (relevant r t)) w'
    | (w', Raise e) =>
        (is_grid_error e = false ∧ ¬ paints r t) ∧
        grid_alloc F (trace w) (length (relevant r t)) w'
    end.
Proof.
  intros Ht Hn. destruct r as [nbins| |vr|vr|vr]; simpl in Hn |- *.
  - pose proof (plot_numericas_run w df t nbins Ht Hn) as Hrun.
    eexists. destruct (plot_numericas df nbins w) as [w' [[]|e]];
      [split; [done|exact Hrun]|exact Hrun].
  - pose proof (plot_categoricas_run w df t Ht Hn) as Hrun.
    eexists. destruct (plot_categoricas df w) as [w' [[]|e]];
      [split; [done|exact Hrun]|exact Hrun].
  - pose proof (relacion_vr_categoricas_run w df t vr Ht Hn) as Hrun.
    eexists. destruct (relacion_vr_categoricas df vr w) as [w' [[]|e]];
      [split; [done|exact Hrun]|exact Hrun].
  - pose proof (relacion_vr_numericas_run w df t vr Ht Hn) as Hrun.
    eexists. destruct (relacion_vr_numericas df vr w) as [w' [[]|e]];
      [split; [done|exact Hrun]|exact Hrun].
  - pose proof (detectar_outliers_run w df t vr Ht Hn) as Hrun.
    eexists. destruct (detectar_outliers df vr w) as [w' [[]|e]];
      [split; [done|exact Hrun]|exact Hrun].
Qed.

(** ** Tables on which every check passes *)

Lemma NoDup_single (t : DataFrame) col :
  NoDup (columns t) → col ∈ columns t → single t col.
Proof.
  unfold single. induction t as [|c t IH]; intros Hnd Hin.
  - by apply elem_of_nil in Hin.
  - change (columns (c :: t)) with (name c :: columns t) in Hnd, Hin.
    apply NoDup_cons in Hnd as [Hc Hnd]. unfold getitem_frame.
    rewrite filter_cons. destruct (decide (name c = col)) as [<-|Hne].
    + fold (getitem_frame t (name c)). by rewrite getitem_empty.
    + apply elem_of_cons in Hin as [->|Hin]; [done|]. by apply IH.
Qed.

Lemma NoDup_select incl (t : DataFrame) :
  NoDup (columns t) → NoDup (columns (select_dtypes_frame incl t)).
Proof.
  intros Hnd. eapply sublist_NoDup; [exact Hnd|].
  unfold columns. apply fmap_sublist, sublist_filter.
Qed.

Lemma getitem_elem (t : DataFrame) col c :
  getitem_frame t col = [c] → c ∈ t ∧ name c = col.
Proof.
  intros Hsel. assert (c ∈ getitem_frame t col) as Hin by (rewrite Hsel; left).
  apply list_elem_of_filter in Hin as [? ?]. done.
Qed.

Lemma elem_columns (t : DataFrame) c : c ∈ t → name c ∈ columns t.
Proof. intros Hc. unfold columns. apply list_elem_of_fmap. eauto. Qed.

Lemma clean_numeric_has_data c : clean_numeric c → has_data c.
Proof.
  intros (_ & Hne & Hall) Hmiss. destruct (values c) as [|v vs]; [done|].
  apply Forall_cons in Hall as [Hv _], Hmiss as [-> _]. done.
Qed.

Lemma plain_has_mean d : is_plain d = true → no_mean d = false.
Proof. by destruct d. Qed.


(** On a tidy table every check passes. *)
Lemma tidy_paints (r : renderer) (t : DataFrame) : tidy r t → paints r t.
Proof.
  intros (Hnd & _ & Hall & Hr). rewrite Forall_forall in Hall.
  pose proof (NoDup_select is_number t Hnd) as Hndn.
  destruct r as [nbins| |vr|vr|vr]; simpl in *.
  - split; [done|]. intros col Hin. by apply NoDup_single.
  - intros col Hin. apply NoDup_single; [done|]. by eapply columns_select.
  - split.
    + intros col Hin. apply NoDup_single; [done|]. by eapply columns_select.
    + apply Exists_exists in Hr as (c & Hc & <- & Hplain & _).
      exists c. split; [|by apply plain_has_mean].
      pose proof (NoDup_single t (name c) Hnd (elem_columns _ _ Hc)) as Hs.
      apply single_inv in Hs as [c' Hs].
      assert (c ∈ getitem_frame t (name c)) as Hin
        by (by apply list_elem_of_filter).
      rewrite Hs in Hin. apply list_elem_of_singleton in Hin as ->. done.
  - intros col Hin _. split; by apply NoDup_single.
  - intros col Hin.
    pose proof (NoDup_single _ col Hndn Hin) as Hs.
    apply single_inv in Hs as [c Hs]. exists c. split; [done|].
    apply getitem_elem in Hs as [Hc <-].
    apply select_dtypes_frame_elem in Hc as [Hk Hc].
    apply clean_numeric_has_data. by apply (Hall c Hc).
Qed.


(** Only [relacion_vr_numericas] leaves the cell of a column out of the
    figure: the cell of a column labelled with the response variable. *)
Lemma cell_of_in_figure r h df (t : DataFrame) k col :
  in_figure (cell_of r h df t k col) = false ↔
  match r with RelacionVrNumericas vr => col = vr | _ => False end.
Proof.
  destruct r as [nbins| |vr|vr|vr]; simpl; try done.
  unfold vr_numericas_cell. by destruct (decide (col = vr)).
Qed.

Lemma grid_done_final_cell r h df (t : DataFrame) F tr0 w' :
  (1 ≤ length (relevant r t))%nat →
  grid_done F tr0 (length (relevant r t))
    (imap (cell_of r h df t) (relevant r t)) w' →
  final_cell_removed (length (relevant r t)) w' ↔
  Nat.odd (length (relevant r t)) = true ∨ deleted_in_loop r t.
Proof.
  intros Hn (_ & Hc & _). unfold final_cell_removed. rewrite Hc. simpl.
  set (cols := relevant r t) in *. unfold cleanup_cells.
  destruct (Nat.odd (length cols)) eqn:Ho.
  - rewrite cells_for_odd by done.
    replace (S (length cols) - 1)%nat with (length cols) by lia.
    rewrite lookup_app_r by (rewrite length_imap; lia).
    rewrite length_imap, Nat.sub_diag. simpl. split; [by left|done].
  - rewrite cells_for_even by done. rewrite app_nil_r, list_lookup_imap.
    assert (deleted_in_loop r t ↔
            ∃ col, cols !! (length cols - 1)%nat = Some col ∧
                   match r with
                   | RelacionVrNumericas vr => col = vr
                   | _ => False
                   end) as ->.
    { unfold deleted_in_loop. fold cols. rewrite last_lookup.
      replace (pred (length cols)) with (length cols - 1)%nat by lia.
      destruct r; split; try done; try (by intros (? & _ & [])).
      - eauto.
      - by intros (? & -> & ->). }
    destruct (cols !! (length cols - 1)%nat) as [col|] eqn:Hl; simpl.
    + rewrite cell_of_in_figure. split.
      * intros H. right. eauto.
      * intros [[=]|(col' & [= <-] & H)]. done.
    + apply lookup_ge_None in Hl. lia.
Qed.

(** C2, as stated, fails for [relacion_vr_numericas] on the numeric columns
    age and income with income as the response variable: the number of
    plots is even, and the final cell of the grid, that of income, has been
    removed. *)
Lemma even_grid_final_cell_removed :
  let t := [mkSeries "age" DInt [Number 31]; mkSeries "income" DFloat [Number 2]] in
  ¬ removed_iff_odd (RelacionVrNumericas "income") (world_of t) 0%nat t.
Proof.
  intros t (w' & Hrun & _ & Hiff).
  vm_compute in Hrun. injection Hrun as <-.
  assert (final_cell_removed (length (relevant (RelacionVrNumericas "income") t))
            {| frames := [t; t];
               current := Some (mkFigure 1 2
                 [mkCell true [Scatterplot "age" "income" 1%nat; Title "age";
                               XLabel ""];
                  mkCell false []] true);
               trace := [ESubplots 1 2; EIndex 0; EIndex 0; EIndex 0;
                         EIndex 1; EDelaxes 1; ETight] |}) as Hrem
    by (vm_compute; reflexivity).
  apply Hiff in Hrem. vm_compute in Hrem. discriminate.
Qed.

(** C2 (amended): for every table whose relevant columns number n >= 1,
    each grid renderer allocates a grid of exactly ceil(n / 2) rows by 2
    columns, whether it returns or raises later; when it returns, the
    events after the loop are the deletion of the final cell of the grid if
    n is odd and none if n is even, followed by the layout, and the final
    cell is out of the figure exactly when n is odd or the loop of
    [relacion_vr_numericas] has removed it as the cell of the response
    variable; and the renderer returns on every tidy table. *)
Theorem grid_is_planned (r : renderer) (w : world) (df : ref) (t : DataFrame) :
  frames w !! df = Some t → (1 ≤ length (relevant r t))%nat →
  grid_rule r w df t.
Proof.
  intros Ht Hn. unfold grid_rule. cbv zeta.
  destruct (run_renderer_cases r w df t Ht Hn) as (F & Hrun).
  destruct (run_renderer r df w) as [w' [u|e]]; simpl.
  - destruct Hrun as [-> Hd]. split; [|split; [|done]].
    + eapply grid_alloc_allocates, grid_done_alloc; [|exact Hd].
      apply length_imap.
    + intros _ _. split.
      * eapply grid_done_trailing; [|exact Hd]. apply length_imap.
      * by eapply grid_done_final_cell.
  - destruct Hrun as ([_ Hres] & Ha). split; [|split; [done|]].
    + by eapply grid_alloc_allocates.
    + intros Hr. by apply tidy_paints in Hr.
Qed.

Lemma grid_is_planned_witness :
  let t := [mkSeries "age" DInt [Number 1]; mkSeries "city" DObject [Text "x"];
            mkSeries "income" DFloat [Number 2]; mkSeries "w" DInt [Number 3]] in
  grid_rule (RelacionVrNumericas "income") (world_of t) 0%nat t.
Proof.
  intros t. apply grid_is_planned.
  - reflexivity.
  - simpl. lia.
Defined.

(** C6: for every table whose relevant columns number n >= 1 and every
    grid renderer, no index of the grid is out of range and no cell is
    deleted twice (the call raises neither exception), and every index the
    call resolves, in the loop or for the trailing cell, addresses a cell
    of the ceil(n / 2) x 2 grid that has not been deleted before.  The
    numeric columns counted are those of a kind below [np.number], the
    time differences among them. *)
Theorem grid_indices_are_valid (r : renderer) (w : world) (df : ref)
    (t : DataFrame) :
  frames w !! df = Some t → (1 ≤ length (relevant r t))%nat →
  grid_addressing_safe r w df t.
Proof.
  intros Ht Hn. unfold grid_addressing_safe. cbv zeta.
  destruct (run_renderer_cases r w df t Ht Hn) as (F & Hrun).
  destruct (run_renderer r df w) as [w' [u|e]]; simpl.
  - destruct Hrun as [_ Hd]. split; [done|].
    apply grid_done_alloc in Hd as (_ & _ & Hs); [exact Hs|apply length_imap].
  - destruct Hrun as ([He _] & _ & _ & Hs). split; [|exact Hs].
    by intros e' [= <-].
Qed.

Lemma grid_indices_are_valid_witness :
  let t := [mkSeries "wait" DTimedelta [Number 5];
            mkSeries "age" DInt [Number 1]; mkSeries "city" DObject [Text "x"];
            mkSeries "income" DFloat [Number 2]] in
  grid_addressing_safe (RelacionVrNumericas "age") (world_of t) 0%nat t.
Proof.
  intros t. apply grid_indices_are_valid.
  - reflexivity.
  - simpl. lia.
Defined.

(** * The response variable against itself *)

Lemma scatter_count (d : ref) (vr : string) (cols : list string) :
  (length (filter (λ c, has_scatter c = true)
             (imap (vr_numericas_cell d vr) cols))
   + length (filter (λ c, c = vr) cols))%nat = length cols.
Proof.
  rewrite (imap_ext _ (const (vr_numericas_cell d vr 0%nat))) by done.
  rewrite imap_const.
  induction cols as [|col cols IH]; [done|].
  rewrite fmap_cons. unfold vr_numericas_cell at 1.
  destruct (decide (col = vr)) as [->|Hne].
  - rewrite filter_cons_False by (simpl; done).
    rewrite filter_cons_True by done. simpl. lia.
  - rewrite filter_cons_True by done.
    rewrite filter_cons_False by done. simpl. lia.
Qed.

(** C3, as stated, fails on a table in which two numeric columns carry the
    label of the response variable: both cells are deleted and no scatter
    chart is left, where one is claimed. *)
Lemma repeated_vr_label_no_scatter :
  let t := [mkSeries "a" DInt [Number 1]; mkSeries "a" DFloat [Number 2]] in
  ¬ self_relation_rule (world_of t) 0%nat t "a".
Proof.
  intros t (w' & g & data & Hrun & Hg & _ & _ & _ & Hcount).
  vm_compute in Hrun. injection Hrun as <-.
  simpl in Hg. injection Hg as <-.
  vm_compute in Hcount. discriminate.
Qed.

Lemma filter_eq_NoDup (l : list string) x :
  NoDup l → x ∈ l → length (filter (λ c, c = x) l) = 1%nat.
Proof.
  induction l as [|y l IH]; intros Hnd Hin; [by apply elem_of_nil in Hin|].
  apply NoDup_cons in Hnd as [Hy Hnd]. rewrite filter_cons.
  destruct (decide (y = x)) as [->|Hne].
  - simpl. f_equal. clear IH Hnd Hin.
    induction l as [|z l IH]; [done|].
    apply not_elem_of_cons in Hy as [Hz Hy].
    rewrite filter_cons, decide_False by done. by apply IH.
  - apply elem_of_cons in Hin as [->|Hin]; [done|]. by apply IH.
Qed.

(** The figure of a complete run of [relacion_vr_numericas]. *)
Lemma vr_numericas_cells F tr0 (d : ref) (vr : string) (cols : list string) w' :
  grid_done F tr0 (length cols) (imap (vr_numericas_cell d vr) cols) w' →
  ∃ g, current w' = Some g ∧
    (∀ i, cols !! i = Some vr → cells g !! i = Some (mkCell false [])) ∧
    (∀ i col, cols !! i = Some col → col ≠ vr →
       ∃ c, cells g !! i = Some c ∧ in_figure c = true ∧
            Scatterplot col vr d ∈ artists c) ∧
    (length (filter (λ c, has_scatter c = true) (cells g))
     + length (filter (λ c, c = vr) cols))%nat = length cols.
Proof.
  intros (_ & Hc & _). eexists. split; [exact Hc|]. simpl.
  assert (∀ i col, cols !! i = Some col →
            (imap (vr_numericas_cell d vr) cols
               ++ cleanup_cells (length cols)) !! i
            = Some (vr_numericas_cell d vr i col)) as Hcell.
  { intros i col Hi. rewrite lookup_app_l.
    - by rewrite list_lookup_imap, Hi.
    - rewrite length_imap. by eapply lookup_lt_Some. }
  split; [|split].
  - intros i Hi. rewrite (Hcell _ _ Hi). unfold vr_numericas_cell.
    by rewrite decide_True.
  - intros i col Hi Hne. rewrite (Hcell _ _ Hi). unfold vr_numericas_cell.
    rewrite decide_False by done. eexists. split; [done|]. split; [done|].
    simpl. left.
  - rewrite filter_app, length_app.
    pose proof (scatter_count d vr cols) as Hsc.
    assert (filter (λ c, has_scatter c = true)
              (cleanup_cells (length cols)) = []) as ->.
    { unfold cleanup_cells. by destruct (Nat.odd _). }
    simpl. lia.
Qed.

(** C3 (amended): for every table whose numeric columns carry pairwise
    distinct labels, the response variable among them: whenever
    [relacion_vr_numericas] returns, it has deleted the cell of the column
    of the response variable without drawing in it and has left a scatter
    chart of the column (x) against the response variable (y) in the cell
    of each other numeric column, n_plots - 1 cells in all; and it returns
    on every tidy table. *)
Theorem self_relation_removed (w : world) (df : ref) (t : DataFrame)
    (vr : string) :
  frames w !! df = Some t →
  NoDup (columns (select_dtypes_frame is_number t)) →
  vr ∈ columns (select_dtypes_frame is_number t) →
  self_relation_on_return w df t vr ∧
  (tidy (RelacionVrNumericas vr) t →
   ∃ w', relacion_vr_numericas df vr w = (w', Ok tt)).
Proof.
  intros Ht Hnd Hvr.
  set (tn := select_dtypes_frame is_number t) in *.
  assert (1 ≤ length (columns tn))%nat as Hn.
  { apply list_elem_of_lookup in Hvr as [i Hi]. apply lookup_lt_Some in Hi. lia. }
  pose proof (relacion_vr_numericas_run w df t vr Ht Hn) as Hrun.
  fold tn in Hrun. split.
  - unfold self_relation_on_return. cbv zeta. fold tn. intros w' Hw'.
    rewrite Hw' in Hrun.
    pose proof Hrun as (HF & _).
    apply vr_numericas_cells in Hrun as (g & Hg & Hdel & Hsc & Hcount).
    exists g, (length (frames w)). split; [done|].
    split; [rewrite HF; apply lookup_new_1|]. split; [done|]. split; [done|].
    rewrite (filter_eq_NoDup _ _ Hnd Hvr) in Hcount. lia.
  - intros Htidy. apply tidy_paints in Htidy.
    destruct (relacion_vr_numericas df vr w) as [w' [[]|e]]; [by exists w'|].
    by destruct Hrun as [[_ Hno] _].
Qed.

Lemma self_relation_removed_witness :
  let t := [mkSeries "age" DInt [Number 1]; mkSeries "city" DObject [Text "x"];
            mkSeries "income" DFloat [Number 2]] in
  self_relation_rule (world_of t) 0%nat t "income".
Proof.
  intros t.
  destruct (self_relation_removed (world_of t) 0%nat t "income")
    as [Hret Htot].
  - reflexivity.
  - apply (bool_decide_unpack _). vm_compute. exact I.
  - apply (bool_decide_unpack _). vm_compute. exact I.
  - destruct Htot as [w' Hw'].
    + apply (bool_decide_unpack _). vm_compute. exact I.
    + destruct (Hret w' Hw') as (g & data & H). exists w', g, data. by split.
Defined.

(** * The order of the count bars *)

Section ValueCounts.
Implicit Types (p q : category * nat) (l : list (category * nat)).
Implicit Types (rs : list category).

Local Abbreviation by_count := (λ p q : category * nat, (q.2 ≤ p.2)%nat).

Lemma insert_desc_perm p l : insert_desc p l ≡ₚ p :: l.
Proof.
  induction l as [|q l IH]; simpl; [done|].
  destruct (decide (q.2 ≤ p.2)%nat); [done|].
  rewrite IH. apply Permutation_swap.
Qed.

Lemma sort_desc_perm l : sort_desc l ≡ₚ l.
Proof.
  induction l as [|p l IH]; simpl; [done|].
  unfold sort_desc in *. simpl. by rewrite insert_desc_perm, IH.
Qed.

Lemma insert_desc_hd p q l :
  HdRel by_count q l → (p.2 ≤ q.2)%nat → HdRel by_count q (insert_desc p l).
Proof.
  intros Hl Hpq. destruct l as [|q' l]; simpl; [by constructor|].
  destruct (decide (q'.2 ≤ p.2)%nat); constructor; [done|].
  by inversion Hl.
Qed.

Lemma insert_desc_sorted p l :
  Sorted by_count l → Sorted by_count (insert_desc p l).
Proof.
  induction 1 as [|q l Hs IH Hhd]; simpl; [by repeat constructor|].
  destruct (decide (q.2 ≤ p.2)%nat) as [Hle|Hgt].
  - constructor; [by constructor|by constructor].
  - constructor; [done|]. apply insert_desc_hd; [done|lia].
Qed.

Lemma sort_desc_sorted l : Sorted by_count (sort_desc l).
Proof.
  induction l as [|p l IH]; [constructor|].
  unfold sort_desc in *. simpl. by apply insert_desc_sorted.
Qed.

Lemma unique_rows_elem rs r : r ∈ unique_rows rs ↔ r ∈ rs.
Proof.
  induction rs as [|r' rs IH]; simpl; [done|].
  rewrite !elem_of_cons, list_elem_of_filter, IH. split.
  - intros [->|[_ Hin]]; [by left|by right].
  - intros [->|Hin]; [by left|].
    destruct (decide (r = r')) as [->|Hne]; [by left|by right].
Qed.

Lemma unique_rows_NoDup rs : NoDup (unique_rows rs).
Proof.
  induction rs as [|r rs IH]; simpl; [constructor|].
  constructor; [|by apply NoDup_filter].
  rewrite list_elem_of_filter. by intros [Hne _].
Qed.

Lemma value_counts_index_perm sel :
  (value_counts sel).*1 ≡ₚ unique_rows (dropna (rows_of sel)).
Proof.
  unfold value_counts. cbv zeta. rewrite sort_desc_perm.
  rewrite <- list_fmap_compose. by rewrite list_fmap_id.
Qed.

Lemma value_counts_counts sel :
  (value_counts sel).*2 = frequencies sel (value_counts sel).*1.
Proof.
  unfold frequencies. rewrite <- list_fmap_compose.
  apply Forall_fmap_ext.
  unfold value_counts. cbv zeta. rewrite sort_desc_perm.
  rewrite Forall_fmap. by apply Forall_true.
Qed.

Lemma sorted_chain l : Sorted by_count l → chain le l.*2.
Proof.
  induction 1 as [|p l Hs IH Hhd]; intros j a b Ha Hb; [done|].
  destruct j as [|j]; simpl in *.
  - injection Ha as <-. destruct l as [|q l]; [done|].
    simpl in Hb. injection Hb as <-. by inversion Hhd.
  - by eapply IH.
Qed.

Lemma value_counts_chain sel :
  chain le (frequencies sel (value_counts sel).*1).
Proof.
  rewrite <- value_counts_counts. apply sorted_chain.
  unfold value_counts. apply sort_desc_sorted.
Qed.
End ValueCounts.

(** C5, as stated, fails on a column in which two categories are equally
    frequent: their bars are adjacent and neither frequency is strictly
    below the other. *)
Lemma tied_categories_not_strict :
  let t := [mkSeries "city" DObject [Text "a"; Text "b"]] in
  ¬ bars_ordered lt (world_of t) 0%nat t.
Proof.
  intros t (w' & g & Hrun & Hg & Hbars).
  vm_compute in Hrun. injection Hrun as <-.
  simpl in Hg. injection Hg as <-.
  destruct (Hbars 0%nat "city" eq_refl)
    as (c & data & order & Hc & _ & Hin & _ & _ & Hchain).
  simpl in Hc. injection Hc as <-. simpl in Hin.
  apply elem_of_cons in Hin as [[= -> ->]|Hin].
  - specialize (Hchain 0%nat 1%nat 1%nat eq_refl eq_refl). lia.
  - repeat (apply elem_of_cons in Hin as [[=]|Hin]). by apply elem_of_nil in Hin.
Qed.

(** C5 (amended): for every table with at least one object column:
    whenever [plot_categoricas] returns, it has drawn for each such column
    the count bars of its distinct categories, each once, in descending
    order of frequency in the sense that no bar is more frequent than the
    bar before it, equally frequent categories being adjacent; and it
    returns on every tidy table. *)
Theorem bars_by_descending_frequency (w : world) (df : ref) (t : DataFrame) :
  frames w !! df = Some t →
  (1 ≤ length (columns (select_dtypes_frame is_object t)))%nat →
  bars_ordered_on_return le w df t ∧
  (tidy PlotCategoricas t → ∃ w', plot_categoricas df w = (w', Ok tt)).
Proof.
  intros Ht Hn.
  pose proof (plot_categoricas_run w df t Ht Hn) as Hrun. split.
  - intros w' Hw'. rewrite Hw' in Hrun. destruct Hrun as (HF & Hc & _).
    eexists. split; [exact Hc|]. simpl.
    intros i col Hi.
    exists (categoricas_cell t (S (length (frames w))) i col),
           (S (length (frames w))), (value_counts (getitem_frame t col)).*1.
    split.
    { rewrite lookup_app_l.
      - by rewrite list_lookup_imap, Hi.
      - rewrite length_imap. by eapply lookup_lt_Some. }
    split; [done|]. split; [simpl; left|].
    split; [|split].
    + rewrite value_counts_index_perm. apply unique_rows_NoDup.
    + intros cat. rewrite value_counts_index_perm. apply unique_rows_elem.
    + apply value_counts_chain.
  - intros Htidy. apply tidy_paints in Htidy.
    destruct (plot_categoricas df w) as [w' [[]|e]]; [by exists w'|].
    by destruct Hrun as [[_ Hno] _].
Qed.

Lemma bars_by_descending_frequency_witness :
  let t := [mkSeries "age" DInt [Number 1; Number 2; Number 3];
            mkSeries "city" DObject [Text "a"; Text "b"; Text "b"]] in
  bars_ordered le (world_of t) 0%nat t.
Proof.
  intros t.
  destruct (bars_by_descending_frequency (world_of t) 0%nat t) as [Hret Htot].
  - reflexivity.
  - simpl. lia.
  - destruct Htot as [w' Hw'].
    + apply (bool_decide_unpack _). vm_compute. exact I.
    + destruct (Hret w' Hw') as (g & H). exists w', g. by split.
Defined.

(** * The correlation heat map *)








(** * What each renderer leaves in the figure *)

Lemma grid_done_figure F tr0 n done w' :
  grid_done F tr0 n done w' → current w' = Some (grid_figure n done).
Proof. by intros (_ & Hc & _). Qed.

(** X1: on every table with at least one numeric column, whenever
    [plot_numericas] returns, the figure holds, in the order of the numeric
    columns, one cell per column with its histogram over the numeric subset
    with the given number of bins, titled by the label and with an empty x
    label; behind them only the deleted trailing cell when their number is
    odd.  It returns so on every tidy table, the number of bins being
    positive. *)
Theorem plot_numericas_figure (w : world) (df : ref) (t : DataFrame) (nbins : Z) :
  frames w !! df = Some t →
  (1 ≤ length (columns (select_dtypes_frame is_number t)))%nat →
  draws_on_return (plot_numericas df nbins) w (length (frames w))
    (select_dtypes_frame is_number t)
    (numericas_cell (length (frames w)) nbins) ∧
  (tidy (PlotNumericas nbins) t →
   draws (plot_numericas df nbins) w (length (frames w))
     (select_dtypes_frame is_number t)
     (numericas_cell (length (frames w)) nbins)).
Proof.
  intros Ht Hn.
  pose proof (plot_numericas_run w df t nbins Ht Hn) as Hrun.
  assert (draws_on_return (plot_numericas df nbins) w (length (frames w))
            (select_dtypes_frame is_number t)
            (numericas_cell (length (frames w)) nbins)) as Hret.
  { intros w' Hw'. rewrite Hw' in Hrun. split.
    - destruct Hrun as (-> & _). apply lookup_new_1.
    - by eapply grid_done_figure. }
  split; [done|]. intros Htidy. apply tidy_paints in Htidy.
  destruct (plot_numericas df nbins w) as [w' [[]|e]] eqn:Hw'.
  - exists w'. split; [done|]. by apply Hret.
  - by destruct Hrun as [[_ Hno] _].
Qed.

Lemma plot_numericas_figure_witness :
  let t := [mkSeries "age" DInt [Number 1]; mkSeries "city" DObject [Text "x"];
            mkSeries "income" DFloat [Number 2]; mkSeries "w" DInt [Number 7]] in
  draws (plot_numericas 0%nat 20) (world_of t) 1%nat
    (select_dtypes_frame is_number t) (numericas_cell 1%nat 20).
Proof.
  intros t.
  destruct (plot_numericas_figure (world_of t) 0%nat t 20) as [_ Htot].
  - reflexivity.
  - simpl. lia.
  - apply Htot. apply (bool_decide_unpack _). vm_compute. exact I.
Defined.







(** * Errors in the first iteration *)

Lemma for_enumerate_first_raise {A} (l : list A) x l' i body w w' e :
  l = x :: l' → body i x w = (w', Raise e) →
  for_enumerate i l body w = (w', Raise e).
Proof. intros -> Hb. simpl. by rewrite bind_run, Hb. Qed.

Lemma skeleton_first_raise F tr0 (cols : list string) body col rest e evs w :
  cols = col :: rest → frames w = F → trace w = tr0 →
  body (seq 0 (cells_for (length cols))) 0 col
    (grid_world F tr0 (length cols) [] blank_cell [])
  = (grid_world F tr0 (length cols) [] blank_cell evs, Raise e) →
  grid_skeleton cols body w
  = (grid_world F tr0 (length cols) [] blank_cell evs, Raise e).
Proof.
  intros Hcols HF Ht Hbody.
  assert (1 ≤ length cols)%nat as Hn by (rewrite Hcols; simpl; lia).
  pose proof (cells_for_ge (length cols)) as Hge.
  unfold grid_skeleton. cbv zeta. fold (rows_for (length cols)).
  rewrite bind_run. unfold plt_subplots, fig_subplots.
  destruct (decide (rows_for (length cols) ≤ 0)) as [Hr|_];
    [by apply rows_for_pos in Hr|].
  destruct (decide (2 ≤ 0)) as [|_]; [lia|].
  fold (cells_for (length cols)).
  replace ((plt_figure >> set_current _ >> log _ >> ret _) w)
    with (grid_world F tr0 (length cols) [] blank_cell [],
          Ok (seq 0 (cells_for (length cols)))).
  2:{ destruct w as [F' c' t']. simpl in HF, Ht. subst F' t'.
      unfold grid_world. simpl length. rewrite app_nil_l.
      replace (cells_for (length cols) - 1)%nat
        with (pred (cells_for (length cols))) by lia.
      rewrite <- replicate_S, Nat.succ_pred by lia.
      reflexivity. }
  cbv beta iota. rewrite bind_run.
  by rewrite (for_enumerate_first_raise _ _ _ _ _ _ _ _ Hcols Hbody).
Qed.

Lemma raises_at_first_column_intro (m : M unit) w n e evs :
  (1 ≤ n)%nat →
  m w = (grid_world (frames (m w).1) (trace w) n [] blank_cell evs, Raise e) →
  raises_at_first_column m w n e evs.
Proof.
  intros Hn Hrun. pose proof (cells_for_ge n) as Hge.
  eexists _, _. split; [exact Hrun|]. simpl.
  split; [reflexivity|]. simpl. repeat split.
  replace (cells_for n - 1)%nat with (pred (cells_for n)) by lia.
  rewrite <- replicate_S, Nat.succ_pred by lia. reflexivity.
Qed.

(** X5: when [vr] is not the label of a numeric column of the table (it is
    no column at all, or a column of a kind that is not below [np.number],
    an object column for one) and there is at least one numeric column,
    [relacion_vr_numericas] raises the error of a variable that cannot be
    interpreted, for [vr], in its first iteration: the only cell addressed
    is the first, and no chart has been drawn and no cell deleted. *)
Theorem non_numeric_vr_raises (w : world) (df : ref) (t : DataFrame) (vr : string) :
  frames w !! df = Some t →
  (1 ≤ length (columns (select_dtypes_frame is_number t)))%nat →
  vr ∉ columns (select_dtypes_frame is_number t) →
  raises_at_first_column (relacion_vr_numericas df vr) w
    (length (columns (select_dtypes_frame is_number t)))
    (ValueError_interpret vr) [EIndex 0].
Proof.
  intros Ht Hn Hvr.
  set (tn := select_dtypes_frame is_number t) in *.
  destruct (columns tn) as [|col rest] eqn:Hcols; [simpl in Hn; lia|].
  rewrite <- Hcols in *.
  assert (col ∈ columns tn) as Hcol by (rewrite Hcols; left).
  assert (col ≠ vr) as Hne by (by intros ->).
  pose proof (cells_for_ge (length (columns tn))) as Hge.
  assert (relacion_vr_numericas df vr w
          = (grid_world (frames w ++ [tn]) (trace w) (length (columns tn)) []
               blank_cell [EIndex 0], Raise (ValueError_interpret vr))) as Hrun.
  { rewrite (relacion_vr_numericas_unfold _ _ t) by done. fold tn.
    apply (skeleton_first_raise _ _ _ _ col rest); [done|done|done|].
    unfold vr_numericas_body. rewrite decide_False by done.
    change 0 with (Z.of_nat 0).
    rewrite bind_run, (focus_flat_getitem _ _ _ [] blank_cell [] 0%nat) by (done || lia).
    cbv beta iota. unfold sns_scatterplot. rewrite !bind_run.
    erewrite (sns_assign_run _ _ _ tn) by apply lookup_new_1.
    by rewrite assign_absent. }
  apply raises_at_first_column_intro; [done|]. by rewrite Hrun.
Qed.

Lemma non_numeric_vr_raises_witness :
  let t := [mkSeries "age" DInt [Number 1]; mkSeries "city" DObject [Text "x"];
            mkSeries "wait" DTimedelta [Number 5]] in
  raises_at_first_column (relacion_vr_numericas 0%nat "city") (world_of t) 2%nat
    (ValueError_interpret "city") [EIndex 0].
Proof.
  intros t. apply (non_numeric_vr_raises (world_of t) 0%nat t "city").
  - reflexivity.
  - simpl. lia.
  - apply (bool_decide_unpack _). vm_compute. exact I.
Defined.

(** X6: when the label of the first object column selects more than one
    column of the table, [relacion_vr_categoricas] raises the error of a
    grouper that is not 1-dimensional, for that label, in its first
    iteration and whatever [vr] is, a column or not: the grouping is built
    before [vr] is looked up.  No cell has been addressed. *)
Theorem repeated_label_raises (w : world) (df : ref) (t : DataFrame)
    (vr col : string) (rest : list string) :
  frames w !! df = Some t →
  columns (select_dtypes_frame is_object t) = col :: rest →
  (1 < length (getitem_frame t col))%nat →
  raises_at_first_column (relacion_vr_categoricas df vr) w
    (length (columns (select_dtypes_frame is_object t)))
    (ValueError_grouper col) [].
Proof.
  intros Ht Hcols Hsel.
  set (tc := select_dtypes_frame is_object t) in *.
  assert (relacion_vr_categoricas df vr w
          = (grid_world (frames w ++ [tc]) (trace w) (length (columns tc)) []
               blank_cell [], Raise (ValueError_grouper col))) as Hrun.
  { rewrite (relacion_vr_categoricas_unfold _ _ t) by done. fold tc.
    apply (skeleton_first_raise _ _ _ _ col rest); [done|done|done|].
    unfold vr_categoricas_body. rewrite bind_run.
    unfold df_groupby, deref, grid_world. simpl frames.
    rewrite (lookup_app_l_Some _ _ _ _ Ht). simpl default.
    destruct (getitem_frame t col) as [|c [|c' sel]]; simpl in Hsel; [lia|lia|].
    reflexivity. }
  apply raises_at_first_column_intro; [rewrite Hcols; simpl; lia|].
  by rewrite Hrun.
Qed.

Lemma repeated_label_raises_witness :
  let t := [mkSeries "a" DObject [Text "x"]; mkSeries "income" DInt [Number 1];
            mkSeries "a" DObject [Text "y"]] in
  raises_at_first_column (relacion_vr_categoricas 0%nat "income") (world_of t)
    2%nat (ValueError_grouper "a") [].
Proof.
  intros t. apply (repeated_label_raises (world_of t) 0%nat t "income" "a" ["a"]).
  - reflexivity.
  - reflexivity.
  - simpl. lia.
Defined.

(** * The classifier, by position *)

Lemma kinds_add_up (t : DataFrame) :
  (length (select_dtypes_frame is_number t)
   + length (select_dtypes_frame is_object t)
   + length (select_dtypes_frame is_other t))%nat = length t.
Proof.
  unfold select_dtypes_frame. induction t as [|c t IH]; [done|].
  rewrite !filter_cons. unfold is_other in *.
  destruct (kind c); simpl; lia.
Qed.

(** X7: for every table, with repeated labels or not, [separar_df] returns
    references to two new tables, distinct from each other and from every
    table that existed; the first holds exactly the columns of the table
    of a kind below [np.number] (the time differences among them), the
    second exactly its object columns, both in the order of the table; no
    column of the table is in both; and every column is counted once among
    the numeric, the object and the remaining columns. *)
Theorem separar_df_splits_by_position (w : world) (df : ref) (t : DataFrame) :
  frames w !! df = Some t → positional_split w df t.
Proof.
  intros Ht. unfold positional_split.
  eexists _, _, _, _, _. split; [by apply separar_df_run|]. simpl.
  split; [done|]. split; [apply lookup_new_1|]. split; [apply lookup_new_2|].
  split; [lia|]. split; [lia|]. split; [lia|].
  split; [intros c; rewrite select_dtypes_frame_elem; tauto|].
  split; [intros c; rewrite select_dtypes_frame_elem; tauto|].
  split; [apply sublist_filter|]. split; [apply sublist_filter|].
  split; [|apply kinds_add_up].
  intros c [Hn Hc].
  apply select_dtypes_frame_elem in Hn as [Kn _], Hc as [Kc _].
  by eapply number_not_object.
Qed.

Lemma separar_df_splits_by_position_witness :
  let t := [mkSeries "a" DInt [Number 1]; mkSeries "a" DObject [Text "x"];
            mkSeries "ok" DBool [Missing]; mkSeries "wait" DTimedelta [Number 5]] in
  positional_split (world_of t) 0%nat t.
Proof. intros t. apply separar_df_splits_by_position. reflexivity. Defined.

Lemma select_twice incl (t : DataFrame) :
  select_dtypes_frame incl (select_dtypes_frame incl t) = select_dtypes_frame incl t.
Proof. unfold select_dtypes_frame. by apply list_filter_filter_l. Qed.

Lemma select_object_of_number (t : DataFrame) :
  select_dtypes_frame is_object (select_dtypes_frame is_number t) = [].
Proof.
  unfold select_dtypes_frame. induction t as [|c t IH]; [done|].
  rewrite (filter_cons _ c t). destruct (kind c) eqn:K; simpl;
    rewrite ?filter_cons, ?K; simpl; exact IH.
Qed.

Lemma select_number_of_object (t : DataFrame) :
  select_dtypes_frame is_number (select_dtypes_frame is_object t) = [].
Proof.
  unfold select_dtypes_frame. induction t as [|c t IH]; [done|].
  rewrite (filter_cons _ c t). destruct (kind c) eqn:K; simpl;
    rewrite ?filter_cons, ?K; simpl; exact IH.
Qed.

(** X8: classifying again what [separar_df] returned changes nothing: the
    numeric subset of the numeric subset (the columns of a kind below
    [np.number], the time differences among them) is that subset and its
    object subset is empty; the object subset of the object subset is that
    subset and its numeric subset is empty. *)
Theorem separar_df_twice (w : world) (df : ref) (t : DataFrame) :
  frames w !! df = Some t → classify_twice w df t.
Proof.
  intros Ht. unfold classify_twice.
  eexists _, _, _. split; [by apply separar_df_run|]. split.
  - eexists _, _, _. split.
    + apply (separar_df_run _ _ (select_dtypes_frame is_number t)).
      simpl. apply lookup_new_1.
    + simpl. rewrite select_twice, select_object_of_number.
      split; [apply lookup_new_1|apply lookup_new_2].
  - eexists _, _, _. split.
    + apply (separar_df_run _ _ (select_dtypes_frame is_object t)).
      simpl. apply lookup_new_2.
    + simpl. rewrite select_twice, select_number_of_object.
      split; [apply lookup_new_1|apply lookup_new_2].
Qed.

Lemma separar_df_twice_witness :
  let t := [mkSeries "wait" DTimedelta [Number 5]; mkSeries "age" DInt [Number 1];
            mkSeries "city" DObject [Text "x"]; mkSeries "ok" DBool [Missing]] in
  classify_twice (world_of t) 0%nat t.
Proof. intros t. apply separar_df_twice. reflexivity. Defined.

(** * What the count bars count *)

Lemma count_rows_cons (r x : category) (rs : list category) :
  count_rows r (x :: rs)
  = ((if decide (x = r) then 1 else 0) + count_rows r rs)%nat.
Proof.
  unfold count_rows. rewrite filter_cons. by destruct (decide (x = r)).
Qed.

Lemma count_rows_elem (r : category) (rs : list category) :
  r ∈ rs → (1 ≤ count_rows r rs)%nat.
Proof.
  intros Hin. unfold count_rows.
  assert (r ∈ filter (λ x, x = r) rs) as Hf by (by apply list_elem_of_filter).
  destruct (filter (λ x, x = r) rs); [by apply elem_of_nil in Hf|simpl; lia].
Qed.

Lemma sum_indicator (r : category) (us : list category) :
  NoDup us → r ∈ us →
  sum_list ((λ u, if decide (r = u) then 1 else 0)%nat <$> us) = 1%nat.
Proof.
  induction 1 as [|u us Hnot Hnd IH]; intros Hin; [by apply elem_of_nil in Hin|].
  rewrite fmap_cons. simpl. destruct (decide (r = u)) as [->|Hne].
  - assert (sum_list ((λ u', if decide (u = u') then 1 else 0)%nat <$> us) = 0%nat)
      as ->; [|done].
    clear IH Hin Hnd. induction us as [|u' us IH]; [done|].
    rewrite fmap_cons. simpl. rewrite decide_False.
    + apply IH. intros Hin. apply Hnot. by right.
    + intros ->. apply Hnot. left.
  - apply elem_of_cons in Hin as [?|Hin]; [done|]. by apply IH.
Qed.

Lemma sum_counts (rs us : list category) :
  NoDup us → (∀ r, r ∈ rs → r ∈ us) →
  sum_list ((λ u, count_rows u rs) <$> us) = length rs.
Proof.
  intros Hnd. induction rs as [|r rs IH]; intros Hsub.
  - clear Hsub Hnd. induction us as [|u us IHu]; [done|].
    rewrite fmap_cons. simpl. exact IHu.
  - simpl. rewrite <- IH by (intros r' Hr'; apply Hsub; by right).
    pose proof (sum_indicator r us Hnd (Hsub r ltac:(left))) as Hone.
    assert (∀ l : list category,
              sum_list ((λ u, count_rows u (r :: rs)) <$> l)
              = (sum_list ((λ u, if decide (r = u) then 1 else 0)%nat <$> l)
                 + sum_list ((λ u, count_rows u rs) <$> l))%nat) as Hsplit.
    { clear. intros l. induction l as [|u l IHl]; [done|].
      rewrite !fmap_cons. simpl. rewrite count_rows_cons, IHl. lia. }
    by rewrite Hsplit, Hone.
Qed.

Lemma value_counts_sum (sel : list Series) :
  sum_list (frequencies sel (value_counts sel).*1)
  = length (dropna (rows_of sel)).
Proof.
  rewrite <- value_counts_counts. unfold value_counts. cbv zeta.
  rewrite sort_desc_perm, <- list_fmap_compose.
  apply sum_counts; [apply unique_rows_NoDup|].
  intros r. by rewrite unique_rows_elem.
Qed.

Lemma dropna_single (vs : list cell) :
  dropna ((λ v, [v]) <$> vs) = (λ v, [v]) <$> filter (λ v, v ≠ Missing) vs.
Proof.
  unfold dropna. induction vs as [|v vs IH]; [done|].
  rewrite fmap_cons, !filter_cons.
  destruct (decide (v ≠ Missing)) as [Hv|Hv].
  - rewrite decide_True; [by rewrite fmap_cons, IH|].
    intros Hin. apply list_elem_of_singleton in Hin. congruence.
  - rewrite decide_False; [exact IH|].
    intros Hno. apply Hv. intros ->. apply Hno. left.
Qed.

(** X9: take a tidy table and a column of it whose label is that of the
    i-th object column.  In the count plot [plot_categoricas] draws for
    it, every bar is a value that occurs in the column and is not missing,
    every bar has a frequency of at least one, and the frequencies of the
    bars add up to the number of cells of the column that are not missing:
    a missing value gets no bar and is counted in none. *)
Theorem bars_leave_out_missing (w : world) (df : ref) (t : DataFrame)
    (i : nat) (c : Series) :
  frames w !! df = Some t →
  tidy PlotCategoricas t →
  columns (select_dtypes_frame is_object t) !! i = Some (name c) →
  getitem_frame t (name c) = [c] →
  bars_count_present w df i c.
Proof.
  intros Ht Htidy Hi Hsel. unfold bars_count_present.
  apply tidy_paints in Htidy.
  assert (1 ≤ length (columns (select_dtypes_frame is_object t)))%nat as Hn.
  { apply lookup_lt_Some in Hi. lia. }
  pose proof (plot_categoricas_run w df t Ht Hn) as Hrun.
  destruct (plot_categoricas df w) as [w' [[]|e]];
    [|by destruct Hrun as [[_ Hno] _]].
  destruct Hrun as (HF & Hc & _).
  eexists w', _, (categoricas_cell t (S (length (frames w))) i (name c)),
    (S (length (frames w))), (value_counts [c]).*1.
  split; [done|]. split; [exact Hc|]. simpl cells.
  split.
  { rewrite lookup_app_l.
    - by rewrite list_lookup_imap, Hi.
    - rewrite length_imap. by eapply lookup_lt_Some. }
  split; [unfold categoricas_cell; rewrite Hsel; simpl; left|].
  assert (∀ cat, cat ∈ (value_counts [c]).*1 → cat ∈ dropna (rows_of [c]))
    as Hcat.
  { intros cat. rewrite value_counts_index_perm. apply unique_rows_elem. }
  split; [|split].
  - intros cat Hin. apply Hcat in Hin. simpl in Hin.
    rewrite dropna_single in Hin.
    apply list_elem_of_fmap in Hin as (v & -> & Hv).
    apply list_elem_of_filter in Hv as [Hv Hin]. eauto.
  - unfold frequencies. rewrite Forall_fmap. apply Forall_forall.
    intros cat Hin. simpl. by apply count_rows_elem, Hcat.
  - rewrite value_counts_sum. simpl. by rewrite dropna_single, length_fmap.
Qed.

Lemma bars_leave_out_missing_witness :
  let c := mkSeries "city" DObject [Text "a"; Missing; Text "b"; Text "a"] in
  let t := [mkSeries "age" DInt [Number 1; Number 2; Number 3; Number 4]; c;
            mkSeries "zone" DObject [Text "n"; Text "s"; Missing; Text "n"]] in
  bars_count_present (world_of t) 0%nat 0%nat c.
Proof.
  intros c t. apply (bars_leave_out_missing (world_of t) 0%nat t 0%nat c).
  - reflexivity.
  - apply (bool_decide_unpack _). vm_compute. exact I.
  - reflexivity.
  - reflexivity.
Defined.

(** * A heat map of one column *)


